(** * RequestGateway: the HTTP access layer of web/src/services/api.ts

    A shallow embedding of class [API]: the private dispatch routine
    [fetch], the path helpers and every endpoint method, over a small model
    of the browser runtime they call into (JavaScript values, [JSON],
    promises, the transport primitive, [localStorage] and
    [location.reload]). *)

From stdpp Require Import gmap strings list.
From Stdlib Require Import ZArith Ascii String Decimal DecimalZ DecimalPos DecimalFacts.

Local Open Scope Z_scope.

(** ** JavaScript values *)

(** A [Blob]: its MIME [type] and its bytes. *)
Record Blob := mkBlob { blob_type : string; blob_bytes : list Byte.byte }.

(** Numbers.  [NInt z] is the double whose value is the integer [z]; the
    two infinities and NaN are kept because they matter for truthiness and
    for [JSON.stringify].  Fractions and the negative zero are outside the
    model, and [NInt z] is a number only for the integers [safe_integer]
    admits: what is said of numerals below is said of those. *)
Inductive JSNumber :=
| NInt (z : Z)
| NNaN
| NInfinity (negative : bool).

(** The integers of magnitude at most 2^53: each of them is a double, is
    written by Number::toString as its decimal digits and is what its
    digits denote when read back. *)
Definition safe_integer (z : Z) : bool := Z.leb (Z.abs z) 9007199254740992.

Inductive ErrorClass := Error | SyntaxError | TypeError.

#[local] Unset Elimination Schemes.

(** Values of type [any].  An object is the list of its own enumerable
    string-keyed properties in enumeration order (array-index names first,
    ascending, then the other names in the order of creation; see
    [enumeration_ordered]).  A string holds the UTF-8 bytes of a text.
    Functions, symbols, BigInts and objects that contain themselves are
    outside the model.  [JError Error m] is
    [new Error(m)]; an error the runtime itself throws carries its class and
    an engine-defined message, left empty here. *)
Inductive JSValue :=
| JUndefined
| JNull
| JBool (b : bool)
| JNum (n : JSNumber)
| JStr (s : string)
| JArr (elems : list JSValue)
| JObj (props : list (string * JSValue))
| JBlob (b : Blob)
| JError (class : ErrorClass) (message : string).

#[local] Set Elimination Schemes.

(** ToBoolean, the test behind [v ? a : b], [!v] and [v || d]. *)
Definition truthy (v : JSValue) : bool :=
  match v with
  | JUndefined | JNull => false
  | JBool b => b
  | JNum (NInt z) => negb (Z.eqb z 0)
  | JNum NNaN => false
  | JNum (NInfinity _) => true
  | JStr s => negb (String.eqb s "")
  | JArr _ | JObj _ | JBlob _ | JError _ _ => true
  end.


(** A settled promise. *)
Inductive Settled (A : Type) :=
| Fulfilled (value : A)
| Rejected (reason : JSValue).
Arguments Fulfilled {A} value.
Arguments Rejected {A} reason.

(** [p.then(f)] for a callback that may throw, and [p.catch(g)]. *)
Definition then_ {A B} (p : Settled A) (f : A -> Settled B) : Settled B :=
  match p with
  | Fulfilled v => f v
  | Rejected e => Rejected e
  end.

Definition catch_ (p : Settled JSValue) (g : JSValue -> JSValue)
  : Settled JSValue :=
  match p with
  | Fulfilled v => Fulfilled v
  | Rejected e => Fulfilled (g e)
  end.

(** ** Number to string *)

Definition digit_char (d : N) : ascii := ascii_of_N (48 + d).

(** Decimal numerals ([Decimal.uint]) as text, most significant digit
    first, in front of [k]. *)
Fixpoint uint_to (u : uint) (k : string) : string :=
  match u with
  | Nil => k
  | D0 u => String "0" (uint_to u k)
  | D1 u => String "1" (uint_to u k)
  | D2 u => String "2" (uint_to u k)
  | D3 u => String "3" (uint_to u k)
  | D4 u => String "4" (uint_to u k)
  | D5 u => String "5" (uint_to u k)
  | D6 u => String "6" (uint_to u k)
  | D7 u => String "7" (uint_to u k)
  | D8 u => String "8" (uint_to u k)
  | D9 u => String "9" (uint_to u k)
  end.

Definition int_to (z : Z) (k : string) : string :=
  match Z.to_int z with
  | Pos u => uint_to u k
  | Neg u => String "-" (uint_to u k)
  end.

(** Number::toString (radix 10), in front of [k]: the digits of a safe
    integer (from 10^21 on the runtime writes an exponent, but no integer
    of the model is that large). *)
Definition Number_to (n : JSNumber) (k : string) : string :=
  match n with
  | NInt z => int_to z k
  | NNaN => "NaN" +:+ k
  | NInfinity false => "Infinity" +:+ k
  | NInfinity true => "-Infinity" +:+ k
  end.

Definition Number_toString (n : JSNumber) : string := Number_to n "".

(** ** JSON.stringify *)

Definition dquote : ascii := "034"%char.

Definition hex_char (d : N) : ascii :=
  if (d <? 10)%N then ascii_of_N (48 + d) else ascii_of_N (87 + d).

(** One code unit of QuoteJSONString: the quote, the backslash and the
    control characters are escaped, everything else is copied. *)
Definition quote_char (c : ascii) (k : string) : string :=
  match c with
  | "034"%char => String "\" (String dquote k)
  | "\"%char => String "\" (String "\" k)
  | "008"%char => String "\" (String "b" k)
  | "009"%char => String "\" (String "t" k)
  | "010"%char => String "\" (String "n" k)
  | "012"%char => String "\" (String "f" k)
  | "013"%char => String "\" (String "r" k)
  | _ =>
      let n := N_of_ascii c in
      if (n <? 32)%N
      then String "\" (String "u" (String "0" (String "0"
             (String (hex_char (n / 16)) (String (hex_char (n mod 16)) k)))))
      else String c k
  end.

Fixpoint quote_chars (s : string) (k : string) : string :=
  match s with
  | EmptyString => k
  | String c r => quote_char c (quote_chars r k)
  end.

(** QuoteJSONString, in front of [k]. *)
Definition QuoteJSONString (s : string) (k : string) : string :=
  String dquote (quote_chars s (String dquote k)).

Definition separator (first : bool) (k : string) : string :=
  if first then k else String "," k.

(** The text of a value in front of [k], as SerializeJSONProperty with no
    replacer and no gap produces it.  [undefined] is written here the way
    an array element is ("null"); a property whose value is [undefined] is
    left out of its object; non-finite numbers give "null"; a [Blob] or an
    [Error] has no enumerable property of its own and gives "{}". *)
Fixpoint serialize_to (v : JSValue) (k : string) : string :=
  match v with
  | JUndefined | JNull => "null" +:+ k
  | JBool true => "true" +:+ k
  | JBool false => "false" +:+ k
  | JNum (NInt z) => int_to z k
  | JNum NNaN | JNum (NInfinity _) => "null" +:+ k
  | JStr s => QuoteJSONString s k
  | JArr l =>
      String "["
        ((fix elements (l : list JSValue) (first : bool) : string :=
            match l with
            | [] => String "]" k
            | x :: l' => separator first (serialize_to x (elements l' false))
            end) l true)
  | JObj ps =>
      String "{"
        ((fix members (ps : list (string * JSValue)) (first : bool) : string :=
            match ps with
            | [] => String "}" k
            | (_, JUndefined) :: ps' => members ps' first
            | (key, x) :: ps' =>
                separator first
                  (QuoteJSONString key
                     (String ":" (serialize_to x (members ps' false))))
            end) ps true)
  | JBlob _ | JError _ _ => "{}" +:+ k
  end.

(** [JSON.stringify(v)]: [None] is the result [undefined]. *)
Definition JSON_stringify (v : JSValue) : option string :=
  match v with
  | JUndefined => None
  | _ => Some (serialize_to v "")
  end.

(** ** JSON.parse

    The JSON grammar, with restrictions that make the parser answer
    [None] on texts [JSON.parse] accepts: a number is the numeral of a safe
    integer other than "-0" (no fraction, no exponent, nothing a double
    would round), and a \u escape denotes a code unit below 128.  Where
    the parser answers a value, it is the value [JSON.parse] gives. *)

Definition is_ws (c : ascii) : bool :=
  match c with
  | " "%char | "009"%char | "010"%char | "013"%char => true
  | _ => false
  end.

Fixpoint skip_ws (s : string) : string :=
  match s with
  | String c r => if is_ws c then skip_ws r else s
  | EmptyString => EmptyString
  end.

(** [expect lit s]: [s] without its prefix [lit]. *)
Fixpoint expect (lit s : string) : option string :=
  match lit, s with
  | EmptyString, _ => Some s
  | String a lit', String b s' => if Ascii.eqb a b then expect lit' s' else None
  | String _ _, EmptyString => None
  end.

Definition hex_value (c : ascii) : option N :=
  let n := N_of_ascii c in
  if (48 <=? n)%N && (n <=? 57)%N then Some (n - 48)%N
  else if (97 <=? n)%N && (n <=? 102)%N then Some (n - 87)%N
  else if (65 <=? n)%N && (n <=? 70)%N then Some (n - 55)%N
  else None.

(** Where the string scanner is: in plain text, just after a backslash, or
    inside a \u escape with [more] hex digits to come after the next one. *)
Inductive StrState :=
| SPlain
| SEscape
| SHex (more : nat) (acc : N).

Definition cons_char (c : ascii) (r : option (string * string))
  : option (string * string) :=
  '(str, rest) ← r; Some (String c str, rest).

(** The characters of a string literal after its opening quote: the
    string denoted and the text after the closing quote. *)
Fixpoint parse_chars (st : StrState) (s : string) : option (string * string) :=
  match s with
  | EmptyString => None
  | String c r =>
      match st with
      | SPlain =>
          match c with
          | "034"%char => Some (EmptyString, r)
          | "\"%char => parse_chars SEscape r
          | _ => if (N_of_ascii c <? 32)%N then None
                 else cons_char c (parse_chars SPlain r)
          end
      | SEscape =>
          match c with
          | "034"%char | "\"%char | "/"%char => cons_char c (parse_chars SPlain r)
          | "b"%char => cons_char "008" (parse_chars SPlain r)
          | "t"%char => cons_char "009" (parse_chars SPlain r)
          | "n"%char => cons_char "010" (parse_chars SPlain r)
          | "f"%char => cons_char "012" (parse_chars SPlain r)
          | "r"%char => cons_char "013" (parse_chars SPlain r)
          | "u"%char => parse_chars (SHex 3 0) r
          | _ => None
          end
      | SHex more acc =>
          match hex_value c with
          | None => None
          | Some d =>
              let acc' := (acc * 16 + d)%N in
              match more with
              | S more' => parse_chars (SHex more' acc') r
              | O => if (acc' <? 128)%N
                     then cons_char (ascii_of_N acc') (parse_chars SPlain r)
                     else None
              end
          end
      end
  end.

Definition digit_of (c : ascii) : option (uint -> uint) :=
  match c with
  | "0"%char => Some D0 | "1"%char => Some D1 | "2"%char => Some D2
  | "3"%char => Some D3 | "4"%char => Some D4 | "5"%char => Some D5
  | "6"%char => Some D6 | "7"%char => Some D7 | "8"%char => Some D8
  | "9"%char => Some D9
  | _ => None
  end.

(** The longest run of digits at the front of [s]. *)
Fixpoint parse_digits (s : string) : uint * string :=
  match s with
  | EmptyString => (Nil, EmptyString)
  | String c r =>
      match digit_of c with
      | Some d => let '(u, r') := parse_digits r in (d u, r')
      | None => (Nil, s)
      end
  end.

(** A numeral has a digit, and no leading zero unless it is "0". *)
Definition numeral_ok (u : uint) : bool :=
  match u with
  | Nil => false
  | D0 Nil => true
  | D0 _ => false
  | _ => true
  end.

Definition number_goes_on (s : string) : bool :=
  match s with
  | String "."%char _ | String "e"%char _ | String "E"%char _ => true
  | _ => false
  end.

(** An integer a double would round is not answered. *)
Definition in_range (z : Z) (r : string) : option (Z * string) :=
  if safe_integer z then Some (z, r) else None.

Definition parse_number (s : string) : option (Z * string) :=
  let '(negative, s') :=
    match s with
    | String "-"%char r => (true, r)
    | _ => (false, s)
    end in
  let '(u, r) := parse_digits s' in
  if negb (numeral_ok u) || number_goes_on r then None
  else if negative
       then (if Z.eqb (Z.of_int (Neg u)) 0 then None
             else in_range (Z.of_int (Neg u)) r)
       else in_range (Z.of_int (Pos u)) r.

(** The array index a property name is, if it is one: the decimal numeral,
    without leading zero, of an integer below 2^32 - 1. *)
Definition array_index (key : string) : option N :=
  match parse_digits key with
  | (u, EmptyString) =>
      if numeral_ok u && (N.of_uint u <? 4294967295)%N
      then Some (N.of_uint u) else None
  | _ => None
  end.

(** Whether a property named [key] is enumerated before one named [key']
    that was created earlier: array indices come first, in ascending
    order; the other names follow in the order of their creation. *)
Definition comes_before (key key' : string) : bool :=
  match array_index key, array_index key' with
  | Some n, Some n' => (n <? n')%N
  | Some _, None => true
  | None, _ => false
  end.

(** The names of an object as the runtime enumerates them: none of them
    would have come before an earlier one. *)
Fixpoint enumeration_ordered (keys : list string) : bool :=
  match keys with
  | [] => true
  | key :: keys' =>
      forallb (fun key' => negb (comes_before key' key)) keys'
      && enumeration_ordered keys'
  end.

Definition has_property (key : string) (ps : list (string * JSValue)) : bool :=
  existsb (fun p => String.eqb (fst p) key) ps.

Fixpoint replace_property (key : string) (v : JSValue)
    (ps : list (string * JSValue)) : list (string * JSValue) :=
  match ps with
  | [] => []
  | (key', v') :: ps' =>
      if String.eqb key' key then (key', v) :: ps'
      else (key', v') :: replace_property key v ps'
  end.

Fixpoint insert_property (key : string) (v : JSValue)
    (ps : list (string * JSValue)) : list (string * JSValue) :=
  match ps with
  | [] => [(key, v)]
  | (key', v') :: ps' =>
      if comes_before key key' then (key, v) :: ps
      else (key', v') :: insert_property key v ps'
  end.

(** [o[key] = v] on a property list: an existing property keeps its place
    and takes the new value, a new one goes to its place in the
    enumeration. *)
Definition set_property (key : string) (v : JSValue)
    (ps : list (string * JSValue)) : list (string * JSValue) :=
  if has_property key ps then replace_property key v ps
  else insert_property key v ps.

(** The object a member list denotes: members are defined in text order,
    so of two members with one name the later value stays. *)
Definition make_object (members : list (string * JSValue))
  : list (string * JSValue) :=
  fold_left (fun o m => set_property (fst m) (snd m) o) members [].

(** Recursive descent; [fuel] bounds the number of nested calls. *)
Fixpoint parse_value (fuel : nat) (s : string) : option (JSValue * string) :=
  match fuel with
  | O => None
  | S fuel =>
      match skip_ws s with
      | EmptyString => None
      | String c r =>
          match c with
          | "n"%char => r' ← expect "ull" r; Some (JNull, r')
          | "t"%char => r' ← expect "rue" r; Some (JBool true, r')
          | "f"%char => r' ← expect "alse" r; Some (JBool false, r')
          | "034"%char =>
              '(str, r') ← parse_chars SPlain r; Some (JStr str, r')
          | "["%char =>
              match skip_ws r with
              | String "]"%char r' => Some (JArr [], r')
              | _ => '(l, r') ← parse_elements fuel r; Some (JArr l, r')
              end
          | "{"%char =>
              match skip_ws r with
              | String "}"%char r' => Some (JObj [], r')
              | _ => '(ms, r') ← parse_members fuel r;
                     Some (JObj (make_object ms), r')
              end
          | _ => '(z, r') ← parse_number (String c r); Some (JNum (NInt z), r')
          end
      end
  end
with parse_elements (fuel : nat) (s : string)
  : option (list JSValue * string) :=
  match fuel with
  | O => None
  | S fuel =>
      '(v, r) ← parse_value fuel s;
      match skip_ws r with
      | String ","%char r' =>
          '(l, r'') ← parse_elements fuel r'; Some (v :: l, r'')
      | String "]"%char r' => Some ([v], r')
      | _ => None
      end
  end
with parse_members (fuel : nat) (s : string)
  : option (list (string * JSValue) * string) :=
  match fuel with
  | O => None
  | S fuel =>
      match skip_ws s with
      | String "034"%char r =>
          '(key, r1) ← parse_chars SPlain r;
          match skip_ws r1 with
          | String ":"%char r2 =>
              '(v, r3) ← parse_value fuel r2;
              match skip_ws r3 with
              | String ","%char r4 =>
                  '(ms, r5) ← parse_members fuel r4; Some ((key, v) :: ms, r5)
              | String "}"%char r4 => Some ([(key, v)], r4)
              | _ => None
              end
          | _ => None
          end
      | _ => None
      end
  end.

(** [JSON.parse(text)]: [None] is the SyntaxError (or a text outside the
    restrictions above). *)
Definition JSON_parse (text : string) : option JSValue :=
  '(v, r) ← parse_value (S (String.length text)) text;
  match skip_ws r with
  | EmptyString => Some v
  | String _ _ => None
  end.

(** The values JSON represents, as far as the model holds numbers:
    [null], booleans, strings, safe integers, arrays of such values and
    objects of such values (an object has no two properties of one name
    and lists them in enumeration order, as every object of the runtime
    does). *)
Fixpoint json_value (v : JSValue) : bool :=
  match v with
  | JNull | JBool _ | JStr _ => true
  | JNum (NInt z) => safe_integer z
  | JArr l => forallb json_value l
  | JObj ps =>
      forallb (fun p => json_value (snd p)) ps
      && bool_decide (NoDup (map fst ps))
      && enumeration_ordered (map fst ps)
  | JUndefined | JNum NNaN | JNum (NInfinity _) | JBlob _ | JError _ _ => false
  end.

(** A bound on the nested calls the parser makes on the text of [v]. *)
Fixpoint weight (v : JSValue) : nat :=
  match v with
  | JArr l => S (list_sum (map (fun x => S (weight x)) l))
  | JObj ps => S (list_sum (map (fun p => S (weight (snd p))) ps))
  | _ => 1
  end.

(** ** Other builtins the endpoint methods use *)

Definition ErrorClass_name (c : ErrorClass) : string :=
  match c with
  | Error => "Error"
  | SyntaxError => "SyntaxError"
  | TypeError => "TypeError"
  end.

(** ToString *)
Fixpoint ToString (v : JSValue) : string :=
  match v with
  | JUndefined => "undefined"
  | JNull => "null"
  | JBool true => "true"
  | JBool false => "false"
  | JNum n => Number_toString n
  | JStr s => s
  | JArr l =>
      (fix join (l : list JSValue) (first : bool) : string :=
         match l with
         | [] => ""
         | x :: l' =>
             (if first then "" else ",") +:+
             match x with
             | JUndefined | JNull => ""
             | _ => ToString x
             end +:+ join l' false
         end) l true
  | JObj _ => "[object Object]"
  | JBlob _ => "[object Blob]"
  | JError c m =>
      if String.eqb m "" then ErrorClass_name c
      else ErrorClass_name c +:+ ": " +:+ m
  end.

(** [JSON.parse(v)] as a callback: the argument is converted to a string,
    a text that does not parse throws. *)
Definition JSON_parse_value (v : JSValue) : Settled JSValue :=
  match JSON_parse (ToString v) with
  | Some x => Fulfilled x
  | None => Rejected (JError SyntaxError "")
  end.

Definition index_name (i : nat) : string := int_to (Z.of_nat i) "".

Fixpoint chars_from (i : nat) (s : string) : list JSValue :=
  match s with
  | EmptyString => []
  | String c r =>
      JArr [JStr (index_name i); JStr (String c EmptyString)]
        :: chars_from (S i) r
  end.

(** [Object.entries(v)]: throws on [undefined] and [null]; the key and
    value pairs of an object, the indexed elements of an array or of a
    string, nothing for other values.  For a string there is one entry
    per byte of the model, which is one per code unit, as the runtime has
    it, for ASCII text only. *)
Definition Object_entries (v : JSValue) : Settled JSValue :=
  match v with
  | JUndefined | JNull => Rejected (JError TypeError "")
  | JObj ps => Fulfilled (JArr (map (fun p => JArr [JStr (fst p); snd p]) ps))
  | JArr l =>
      Fulfilled (JArr (imap (fun i x => JArr [JStr (index_name i); x]) l))
  | JStr s => Fulfilled (JArr (chars_from 0 s))
  | JBool _ | JNum _ | JBlob _ | JError _ _ => Fulfilled (JArr [])
  end.

Definition uri_unreserved (c : ascii) : bool :=
  let n := N_of_ascii c in
  ((65 <=? n) && (n <=? 90) || (97 <=? n) && (n <=? 122)
   || (48 <=? n) && (n <=? 57))%N
  || match c with
     | "-"%char | "_"%char | "."%char | "!"%char | "~"%char | "*"%char
     | "'"%char | "("%char | ")"%char => true
     | _ => false
     end.

Definition upper_hex_char (d : N) : ascii :=
  if (d <? 10)%N then ascii_of_N (48 + d) else ascii_of_N (55 + d).

(** Whether bytes are the UTF-8 of a text: [more] continuation bytes are
    still to come, the next of them between [lo] and [hi].  The encodings
    of surrogates (ED A0 .. ED BF) are no text. *)
Fixpoint utf8_from (more : nat) (lo hi : N) (s : string) : bool :=
  match s with
  | EmptyString => match more with O => true | S _ => false end
  | String c r =>
      let n := N_of_ascii c in
      match more with
      | S more' =>
          if ((lo <=? n) && (n <=? hi))%N then utf8_from more' 128 191 r
          else false
      | O =>
          if (n <? 128)%N then utf8_from 0 128 191 r
          else if ((194 <=? n) && (n <=? 223))%N then utf8_from 1 128 191 r
          else if (n =? 224)%N then utf8_from 2 160 191 r
          else if (n =? 237)%N then utf8_from 2 128 159 r
          else if ((225 <=? n) && (n <=? 239))%N then utf8_from 2 128 191 r
          else if (n =? 240)%N then utf8_from 3 144 191 r
          else if ((241 <=? n) && (n <=? 243))%N then utf8_from 3 128 191 r
          else if (n =? 244)%N then utf8_from 3 128 143 r
          else false
      end
  end.

(** A string without lone surrogate: the strings [encodeURIComponent]
    encodes.  On any other string it throws a URIError. *)
Definition well_formed_text (s : string) : bool := utf8_from 0 128 191 s.


(** [encodeURIComponent] on a well-formed text, held as its UTF-8 bytes;
    the URIError on other strings is not modelled. *)
Fixpoint encodeURIComponent (s : string) : string :=
  match s with
  | EmptyString => EmptyString
  | String c r =>
      if uri_unreserved c then String c (encodeURIComponent r)
      else
        let n := N_of_ascii c in
        String "%" (String (upper_hex_char (n / 16))
                      (String (upper_hex_char (n mod 16))
                         (encodeURIComponent r)))
  end.

(** ** The transport, the session store and the page *)

Inductive Method := GET | POST | PUT | DELETE | PATCH.

(** What a request body is on the wire: the bytes of a [Blob] or a text. *)
Inductive BodyInit :=
| BodyBlob (b : Blob)
| BodyText (s : string).

(** The arguments of the runtime's [fetch(url, init)]; [req_body = None]
    is a request without a body. *)
Record Request := mkRequest {
  req_url : string;
  req_method : Method;
  req_headers : gmap string string;
  req_credentials : string;
  req_body : option BodyInit
}.

(** A response: [status], [statusText] and what [text()] and [json()]
    settle with. *)
Record Response := mkResponse {
  status : Z;
  statusText : string;
  text : Settled string;
  json : Settled JSValue
}.

Inductive Event :=
| Fetched (r : Request)
| ItemRemoved (key : string)
| Reloaded
| TextRead
| JsonRead.

(** The part of the browser a call acts on: [localStorage] and the record
    of what the call did, oldest first. *)
Record World := mkWorld {
  localStorage : gmap string string;
  events : list Event
}.

Definition Eff (A : Type) : Type := World -> A * World.

Definition ret {A} (a : A) : Eff A := fun w => (a, w).

Definition bind {A B} (m : Eff A) (f : A -> Eff B) : Eff B :=
  fun w => let '(a, w') := m w in f a w'.

Notation "'let*' x := m 'in' k" := (bind m (fun x => k))
  (at level 10, x name, m at level 100, k at level 200).
Notation "m ;;; k" := (bind m (fun _ => k))
  (at level 100, k at level 200, right associativity).

Definition record (e : Event) : Eff unit :=
  fun w => (tt, mkWorld (localStorage w) (events w ++ [e])).

(** [localStorage.removeItem(key)] *)
Definition localStorage_removeItem (key : string) : Eff unit :=
  fun w => (tt, mkWorld (delete key (localStorage w))
                        (events w ++ [ItemRemoved key])).

(** [location.reload()] *)
Definition location_reload : Eff unit := record Reloaded.

(** [response.text()] and [response.json()] *)
Definition response_text (r : Response) : Eff (Settled string) :=
  record TextRead ;;; ret (text r).

Definition response_json (r : Response) : Eff (Settled JSValue) :=
  record JsonRead ;;; ret (json r).

(** ** The state a gateway is built from *)

(** Modelled from the spec: [Locale.State] of ../stores/locale, an optional
    string identifying a language; [None] is [null]. *)
Definition Locale_State := option string.

(** Modelled from the spec: [User.State] of ../stores/user, with at least a
    stable client identifier and an optional account, present when an
    authenticated session exists. *)
Record User_State := mkUser {
  userId : string;
  account : JSValue
}.

(** [this.locale ? a : b] *)
Definition locale_truthy (l : Locale_State) : bool :=
  match l with
  | Some s => negb (String.eqb s "")
  | None => false
  end.

(** The locale inside a template string. *)
Definition locale_text (l : Locale_State) : string :=
  match l with
  | Some s => s
  | None => "null"
  end.

Record FetchOptions := mkOptions {
  method : option Method;
  isJSON : option bool;
  headers : option (gmap string string);
  body : JSValue
}.

(** [{}] *)
Definition no_options : FetchOptions := mkOptions None None None JUndefined.

(** [Object.assign(target, source)] on header objects; an [undefined]
    source is skipped. *)
Definition Object_assign (target : gmap string string)
    (source : option (gmap string string)) : gmap string string :=
  match source with
  | Some src => src ∪ target
  | None => target
  end.

(** The value the caller supplied for header [name], if any. *)
Definition supplied (options : FetchOptions) (name : string) : option string :=
  hs ← headers options; hs !! name.

(** [class API] *)
Record API := mkAPI {
  locale : Locale_State;
  user : User_State
}.

(** The string literal types of the endpoint parameters. *)
Inductive DocumentName := privacy | terms.
Inductive ActivityFrom := you | everyone.
Inductive AvatarType := avatar_default | avatar_file | avatar_gravatar.
Inductive LeaderboardType := clip | vote.
Inductive AwardKind := award | notification.

Definition DocumentName_text (n : DocumentName) : string :=
  match n with privacy => "privacy" | terms => "terms" end.

Definition ActivityFrom_text (f : ActivityFrom) : string :=
  match f with you => "you" | everyone => "everyone" end.

Definition AvatarType_text (t : AvatarType) : string :=
  match t with
  | avatar_default => "default"
  | avatar_file => "file"
  | avatar_gravatar => "gravatar"
  end.

(** [(locale ? '/' + locale : '')] for an optional string parameter *)
Definition locale_segment (l : option string) : string :=
  if locale_truthy l then "/" +:+ locale_text l else "".

(** A call of a public endpoint method with its arguments; an absent
    optional argument is [None]. *)
Inductive Call :=
| FetchRandomSentences (count : option JSNumber)
| FetchRandomClips (count : option JSNumber)
| UploadClip (blob : Blob) (sentenceId sentence : string)
| SaveVote (id : string) (isValid : bool)
| FetchValidatedHours
| FetchDailyClipsCount
| FetchDailyVotesCount
| FetchLocaleMessages (locale : string)
| FetchCrossLocaleMessages
| FetchRequestedLanguages
| RequestLanguage (language : string)
| FetchLanguageStats
| FetchDocument (name : DocumentName)
| SkipSentence (id : string)
| FetchClipsStats (locale : option string)
| FetchClipVoices (locale : option string)
| FetchContributionActivity (from : ActivityFrom) (locale : option string)
| FetchUserClients
| FetchAccount
| SaveAccount (data : JSValue)
| SubscribeToNewsletter (email : string)
| SaveAvatar (type : AvatarType) (file : option Blob)
| SaveAvatarClip (blob : Blob)
| FetchAvatarClip
| FetchLeaderboard (type : LeaderboardType)
    (cursor : option (JSNumber * JSNumber))
| CreateGoal (body : JSValue)
| FetchGoals (locale : option string)
| ClaimAccount
| SaveHasDownloaded (email : string)
| SeenAwards (kind : option AwardKind)
| Report (body : JSValue).

Definition is_SaveAvatarClip (c : Call) : bool :=
  match c with SaveAvatarClip _ => true | _ => false end.

Section Gateway.

(** [location.origin], [USER_KEY] of ../stores/root, and the answer of
    the network to a request. *)
Variable origin : string.
Variable USER_KEY : string.
Variable transport : Request -> Settled Response.

(** The runtime's [fetch(url, init)] *)
Definition platform_fetch (r : Request) : Eff (Settled Response) :=
  record (Fetched r) ;;; ret (transport r).

Definition API_PATH : string := origin +:+ "/api/v1".

(** Lines 41-48: the headers after [Object.assign]. *)
Definition merged_headers (options : FetchOptions) : gmap string string :=
  Object_assign
    (if default true (isJSON options)
     then {[ "Content-Type" := "application/json; charset=utf-8" ]}
     else ∅)
    (headers options).

(** Lines 50-52: [finalHeaders] as it is passed on. *)
Definition finalHeaders (this : API) (path : string)
    (options : FetchOptions) : gmap string string :=
  if String.prefix origin path && negb (truthy (account (user this)))
  then <[ "client_id" := userId (user this) ]> (merged_headers options)
  else merged_headers options.

(** Lines 58-62: the [body] property. *)
Definition request_body (b : JSValue) : option BodyInit :=
  if truthy b
  then match b with
       | JBlob blob => Some (BodyBlob blob)
       | _ => BodyText <$> JSON_stringify b
       end
  else None.

(** Lines 54-63: the request handed to the transport. *)
Definition build_request (this : API) (path : string)
    (options : FetchOptions) : Request :=
  {| req_url := path;
     req_method := default GET (method options);
     req_headers := finalHeaders this path options;
     req_credentials := "same-origin";
     req_body := request_body (body options) |}.

(** [private async fetch(path, options = {})] *)
Definition fetch (this : API) (path : string) (options : FetchOptions)
  : Eff (Settled JSValue) :=
  let* response := platform_fetch (build_request this path options) in
  match response with
  | Rejected e => ret (Rejected e)
  | Fulfilled response =>
      if Z.eqb (status response) 401 then
        localStorage_removeItem USER_KEY ;;;
        location_reload ;;;
        ret (Fulfilled JUndefined)
      else if Z.leb 400 (status response) then
        if String.eqb (statusText response) "save_clip_error"
        then ret (Rejected (JError Error (statusText response)))
        else
          let* t := response_text response in
          match t with
          | Fulfilled t => ret (Rejected (JError Error t))
          | Rejected e => ret (Rejected e)
          end
      else if default true (isJSON options)
      then response_json response
      else
        let* t := response_text response in
        match t with
        | Fulfilled t => ret (Fulfilled (JStr t))
        | Rejected e => ret (Rejected e)
        end
  end.

Definition getLocalePath (this : API) : string :=
  if locale_truthy (locale this)
  then API_PATH +:+ "/" +:+ locale_text (locale this)
  else API_PATH.

Definition getClipPath (this : API) : string :=
  getLocalePath this +:+ "/clips".

(** *** Endpoint methods *)

Definition fetchRandomSentences (this : API) (count : option JSNumber)
  : Eff (Settled JSValue) :=
  fetch this
    (getLocalePath this +:+ "/sentences?count="
       +:+ Number_toString (default (NInt 1) count))
    no_options.

Definition fetchRandomClips (this : API) (count : option JSNumber)
  : Eff (Settled JSValue) :=
  fetch this
    (getClipPath this +:+ "?count="
       +:+ Number_toString (default (NInt 1) count))
    no_options.

Definition uploadClip (this : API) (blob : Blob)
    (sentenceId sentence : string) : Eff (Settled JSValue) :=
  fetch this (getClipPath this)
    {| method := Some POST;
       isJSON := None;
       headers := Some (<[ "sentence_id" := sentenceId ]>
                          (<[ "sentence" := encodeURIComponent sentence ]>
                             {[ "Content-Type" := blob_type blob ]}));
       body := JBlob blob |}.

Definition saveVote (this : API) (id : string) (isValid : bool)
  : Eff (Settled JSValue) :=
  fetch this (getClipPath this +:+ "/" +:+ id +:+ "/votes")
    {| method := Some POST; isJSON := None; headers := None;
       body := JObj [("isValid", JBool isValid)] |}.

Definition fetchValidatedHours (this : API) : Eff (Settled JSValue) :=
  fetch this (getClipPath this +:+ "/validated_hours") no_options.

Definition fetchDailyClipsCount (this : API) : Eff (Settled JSValue) :=
  fetch this (getClipPath this +:+ "/daily_count") no_options.

Definition fetchDailyVotesCount (this : API) : Eff (Settled JSValue) :=
  fetch this (getClipPath this +:+ "/votes/daily_count") no_options.

Definition fetchLocaleMessages (this : API) (locale : string)
  : Eff (Settled JSValue) :=
  fetch this ("/locales/" +:+ locale +:+ "/messages.ftl")
    {| method := None; isJSON := Some false; headers := None;
       body := JUndefined |}.

Definition fetchCrossLocaleMessages (this : API) : Eff (Settled JSValue) :=
  let* r := fetch this "/cross-locale-messages.json" no_options in
  ret (then_ r Object_entries).

Definition fetchRequestedLanguages (this : API) : Eff (Settled JSValue) :=
  fetch this (API_PATH +:+ "/requested_languages") no_options.

Definition requestLanguage (this : API) (language : string)
  : Eff (Settled JSValue) :=
  fetch this (API_PATH +:+ "/requested_languages")
    {| method := Some POST; isJSON := None; headers := None;
       body := JObj [("language", JStr language)] |}.

Definition fetchLanguageStats (this : API) : Eff (Settled JSValue) :=
  fetch this (API_PATH +:+ "/language_stats") no_options.

Definition fetchDocument (this : API) (name : DocumentName)
  : Eff (Settled JSValue) :=
  fetch this
    ("/" +:+ DocumentName_text name +:+ "/"
       +:+ locale_text (locale this) +:+ ".html")
    {| method := None; isJSON := Some false; headers := None;
       body := JUndefined |}.

Definition skipSentence (this : API) (id : string) : Eff (Settled JSValue) :=
  fetch this (API_PATH +:+ "/skipped_sentences/" +:+ id)
    {| method := Some POST; isJSON := None; headers := None;
       body := JUndefined |}.

Definition fetchClipsStats (this : API) (locale : option string)
  : Eff (Settled JSValue) :=
  fetch this (API_PATH +:+ locale_segment locale +:+ "/clips/stats")
    no_options.

Definition fetchClipVoices (this : API) (locale : option string)
  : Eff (Settled JSValue) :=
  fetch this (API_PATH +:+ locale_segment locale +:+ "/clips/voices")
    no_options.

Definition fetchContributionActivity (this : API) (from : ActivityFrom)
    (locale : option string) : Eff (Settled JSValue) :=
  fetch this
    (API_PATH +:+ locale_segment locale +:+ "/contribution_activity?from="
       +:+ ActivityFrom_text from)
    no_options.

Definition fetchUserClients (this : API) : Eff (Settled JSValue) :=
  fetch this (API_PATH +:+ "/user_clients") no_options.

Definition fetchAccount (this : API) : Eff (Settled JSValue) :=
  fetch this (API_PATH +:+ "/user_client") no_options.

Definition saveAccount (this : API) (data : JSValue)
  : Eff (Settled JSValue) :=
  fetch this (API_PATH +:+ "/user_client")
    {| method := Some PATCH; isJSON := None; headers := None;
       body := data |}.

Definition subscribeToNewsletter (this : API) (email : string)
  : Eff (Settled JSValue) :=
  fetch this (API_PATH +:+ "/newsletter/" +:+ email)
    {| method := Some POST; isJSON := None; headers := None;
       body := JUndefined |}.

Definition saveAvatar (this : API) (type : AvatarType) (file : option Blob)
  : Eff (Settled JSValue) :=
  let* r :=
    fetch this (API_PATH +:+ "/user_client/avatar/" +:+ AvatarType_text type)
      {| method := Some POST; isJSON := Some false; headers := None;
         body := match file with
                 | Some f => JBlob f
                 | None => JUndefined
                 end |} in
  ret (then_ r JSON_parse_value).

Definition saveAvatarClip (this : API) (blob : Blob)
  : Eff (Settled JSValue) :=
  let* r :=
    fetch this (API_PATH +:+ "/user_client/avatar_clip")
      {| method := Some POST; isJSON := None;
         headers := Some {[ "Content-Type" := blob_type blob ]};
         body := JBlob blob |} in
  ret (catch_ (then_ r (fun body => Fulfilled body)) (fun err => err)).

Definition fetchAvatarClip (this : API) : Eff (Settled JSValue) :=
  fetch this (API_PATH +:+ "/user_client/avatar_clip") no_options.

Definition fetchLeaderboard (this : API) (type : LeaderboardType)
    (cursor : option (JSNumber * JSNumber)) : Eff (Settled JSValue) :=
  fetch this
    (getClipPath this
       +:+ match type with clip => "" | vote => "/votes" end
       +:+ "/leaderboard"
       +:+ match cursor with
           | Some (a, b) =>
               "?cursor="
                 +:+ default "undefined"
                       (JSON_stringify (JArr [JNum a; JNum b]))
           | None => ""
           end)
    no_options.

Definition createGoal (this : API) (body : JSValue)
  : Eff (Settled JSValue) :=
  fetch this (API_PATH +:+ "/user_client/goals")
    {| method := Some POST; isJSON := None; headers := None;
       body := body |}.

Definition fetchGoals (this : API) (locale : option string)
  : Eff (Settled JSValue) :=
  fetch this
    (API_PATH +:+ "/user_client" +:+ locale_segment locale +:+ "/goals")
    no_options.

Definition claimAccount (this : API) : Eff (Settled JSValue) :=
  fetch this
    (API_PATH +:+ "/user_clients/" +:+ userId (user this) +:+ "/claim")
    {| method := Some POST; isJSON := None; headers := None;
       body := JUndefined |}.

Definition saveHasDownloaded (this : API) (email : string)
  : Eff (Settled JSValue) :=
  fetch this (getLocalePath this +:+ "/downloaders/" +:+ email)
    {| method := Some POST; isJSON := None; headers := None;
       body := JUndefined |}.

Definition seenAwards (this : API) (kind : option AwardKind)
  : Eff (Settled JSValue) :=
  fetch this
    (API_PATH +:+ "/user_client/awards/seen"
       +:+ match default award kind with
           | notification => "?notification"
           | award => ""
           end)
    {| method := Some POST; isJSON := None; headers := None;
       body := JUndefined |}.

Definition report (this : API) (body : JSValue) : Eff (Settled JSValue) :=
  fetch this (API_PATH +:+ "/reports")
    {| method := Some POST; isJSON := None; headers := None;
       body := body |}.

(** The method a call runs. *)
Definition invoke (this : API) (c : Call) : Eff (Settled JSValue) :=
  match c with
  | FetchRandomSentences count => fetchRandomSentences this count
  | FetchRandomClips count => fetchRandomClips this count
  | UploadClip blob sentenceId sentence =>
      uploadClip this blob sentenceId sentence
  | SaveVote id isValid => saveVote this id isValid
  | FetchValidatedHours => fetchValidatedHours this
  | FetchDailyClipsCount => fetchDailyClipsCount this
  | FetchDailyVotesCount => fetchDailyVotesCount this
  | FetchLocaleMessages locale => fetchLocaleMessages this locale
  | FetchCrossLocaleMessages => fetchCrossLocaleMessages this
  | FetchRequestedLanguages => fetchRequestedLanguages this
  | RequestLanguage language => requestLanguage this language
  | FetchLanguageStats => fetchLanguageStats this
  | FetchDocument name => fetchDocument this name
  | SkipSentence id => skipSentence this id
  | FetchClipsStats locale => fetchClipsStats this locale
  | FetchClipVoices locale => fetchClipVoices this locale
  | FetchContributionActivity from locale =>
      fetchContributionActivity this from locale
  | FetchUserClients => fetchUserClients this
  | FetchAccount => fetchAccount this
  | SaveAccount data => saveAccount this data
  | SubscribeToNewsletter email => subscribeToNewsletter this email
  | SaveAvatar type file => saveAvatar this type file
  | SaveAvatarClip blob => saveAvatarClip this blob
  | FetchAvatarClip => fetchAvatarClip this
  | FetchLeaderboard type cursor => fetchLeaderboard this type cursor
  | CreateGoal body => createGoal this body
  | FetchGoals locale => fetchGoals this locale
  | ClaimAccount => claimAccount this
  | SaveHasDownloaded email => saveHasDownloaded this email
  | SeenAwards kind => seenAwards this kind
  | Report body => report this body
  end.

End Gateway.

(** ** Gateway objects in memory

    An [API] object holds its locale and a reference to the user state it
    was constructed with; the user state is an object of its own, owned by
    the caller. *)

Record Instance := mkInstance {
  this_locale : Locale_State;
  this_user : nat
}.

Record Heap := mkHeap {
  user_objects : gmap nat User_State;
  gateways : gmap nat Instance
}.

(** [new API(locale, user)]: a fresh object with the two fields set. *)
Definition new_API (locale : Locale_State) (user : nat) (h : Heap)
  : nat * Heap :=
  let r := fresh (dom (gateways h)) in
  (r, mkHeap (user_objects h)
             (<[ r := mkInstance locale user ]> (gateways h))).

(** [forLocale(locale)] on the object at [this]. *)
Definition forLocale (this : nat) (locale : string) (h : Heap)
  : option (nat * Heap) :=
  i ← gateways h !! this;
  Some (new_API (Some locale) (this_user i) h).

(** What the methods of the object at [this] read: [this.locale] and the
    state [this.user] points to. *)
Definition the_API (h : Heap) (this : nat) : option API :=
  i ← gateways h !! this;
  u ← user_objects h !! this_user i;
  Some (mkAPI (this_locale i) u).

(** ** Observations on a run *)

Definition is_removal (key : string) (e : Event) : bool :=
  match e with ItemRemoved k => String.eqb k key | _ => false end.

Definition is_reload (e : Event) : bool :=
  match e with Reloaded => true | _ => false end.

Definition is_body_read (e : Event) : bool :=
  match e with TextRead | JsonRead => true | _ => false end.

(** How often a run removed [key] from the store, reloaded the page, read
    a response body, and the requests it sent. *)
Definition removals (key : string) (evs : list Event) : nat :=
  List.length (List.filter (is_removal key) evs).

Definition reloads (evs : list Event) : nat :=
  List.length (List.filter is_reload evs).

Definition body_reads (evs : list Event) : nat :=
  List.length (List.filter is_body_read evs).

Definition requests (evs : list Event) : list Request :=
  omap (fun e => match e with Fetched r => Some r | _ => None end) evs.

(** ** Auxiliary notions for the proofs *)

(** The text of the elements of an array after "[", and of the members of
    an object after the opening brace, as [serialize_to] writes them. *)
Fixpoint elements_to (l : list JSValue) (first : bool) (k : string) : string :=
  match l with
  | [] => String "]" k
  | x :: l' => separator first (serialize_to x (elements_to l' false k))
  end.

Fixpoint members_to (ps : list (string * JSValue)) (first : bool) (k : string)
  : string :=
  match ps with
  | [] => String "}" k
  | (_, JUndefined) :: ps' => members_to ps' first k
  | (key, x) :: ps' =>
      separator first
        (QuoteJSONString key
           (String ":" (serialize_to x (members_to ps' false k))))
  end.

(** A text that is empty or starts with a delimiter of the grammar. *)
Definition delimited (k : string) : bool :=
  match k with
  | EmptyString => true
  | String c _ =>
      match c with
      | ","%char | "]"%char | "}"%char => true
      | _ => false
      end
  end.

(** A text whose first character is neither white space nor "]". *)
Definition opens_value (s : string) : bool :=
  match s with
  | EmptyString => false
  | String c _ => negb (is_ws c) && negb (Ascii.eqb c "]")
  end.

(** What the round trip says of one value, with the text that follows it
    and the fuel left explicit. *)
Definition parses_back (v : JSValue) : Prop :=
  json_value v = true ->
  forall k fuel, delimited k = true -> (weight v <= fuel)%nat ->
    parse_value fuel (serialize_to v k) = Some (v, k).

Definition long_enough (v : JSValue) : Prop :=
  json_value v = true ->
  forall k,
    (weight v + String.length k <= String.length (serialize_to v k))%nat.

(** Induction on values that reaches the elements of arrays and the
    property values of objects. *)
Section JSValue_induction.

Variable P : JSValue -> Prop.
Hypothesis Hundefined : P JUndefined.
Hypothesis Hnull : P JNull.
Hypothesis Hbool : forall b, P (JBool b).
Hypothesis Hnum : forall n, P (JNum n).
Hypothesis Hstr : forall s, P (JStr s).
Hypothesis Harr : forall l, Forall P l -> P (JArr l).
Hypothesis Hobj : forall ps, Forall (fun p => P (snd p)) ps -> P (JObj ps).
Hypothesis Hblob : forall b, P (JBlob b).
Hypothesis Herror : forall c m, P (JError c m).

Fixpoint JSValue_nested_ind (v : JSValue) : P v :=
  match v with
  | JUndefined => Hundefined
  | JNull => Hnull
  | JBool b => Hbool b
  | JNum n => Hnum n
  | JStr s => Hstr s
  | JArr l =>
      Harr l ((fix all (l : list JSValue) : Forall P l :=
                 match l with
                 | [] => Forall_nil_2 P
                 | x :: l' =>
                     Forall_cons_2 P x l' (JSValue_nested_ind x) (all l')
                 end) l)
  | JObj ps =>
      Hobj ps ((fix all (ps : list (string * JSValue))
                  : Forall (fun p => P (snd p)) ps :=
                  match ps with
                  | [] => Forall_nil_2 _
                  | p :: ps' =>
                      Forall_cons_2 (fun p => P (snd p)) p ps'
                        (JSValue_nested_ind (snd p)) (all ps')
                  end) ps)
  | JBlob b => Hblob b
  | JError c m => Herror c m
  end.

End JSValue_induction.

(** Case analysis on the 256 characters. *)
Ltac each_char c := destruct c as [[] [] [] [] [] [] [] []].

(** Unfolds a run of [fetch] down to the events it appends. *)
Ltac run_fetch :=
  unfold fetch, bind, platform_fetch, response_text, response_json,
    localStorage_removeItem, location_reload, record, ret; simpl.

(** ** Sample data *)

Definition sample_origin : string := "https://voice.example".
Definition sample_key : string := "userKey".

Definition anonymous : User_State := mkUser "client-1" JNull.
Definition signed_in : User_State :=
  mkUser "client-1" (JObj [("email", JStr "ada@voice.example")]).

Definition sample_world : World :=
  mkWorld {[ sample_key := "client-1" ]} [].

Definition sample_blob : Blob := mkBlob "audio/ogg" [Byte.x4f; Byte.x67].

Definition answer (r : Response) : Request -> Settled Response :=
  fun _ => Fulfilled r.

Definition no_json : Settled JSValue := Rejected (JError SyntaxError "").

Definition unauthorized : Response :=
  mkResponse 401 "Unauthorized" (Fulfilled "") no_json.

Definition clip_rejected : Response :=
  mkResponse 404 "save_clip_error" (Fulfilled "not found") no_json.

Definition server_failure : Response :=
  mkResponse 500 "Internal Server Error" (Fulfilled "internal error") no_json.

Definition accepted : Response :=
  mkResponse 200 "OK" (Fulfilled "[1,true]")
    (Fulfilled (JObj [("en", JStr "English"); ("cy", JStr "Cymraeg")])).

Definition unreachable : Request -> Settled Response :=
  fun _ => Rejected (JError TypeError "Failed to fetch").

Definition sample_heap : Heap :=
  mkHeap {[ 7%nat := anonymous ]} {[ 0%nat := mkInstance None 7%nat ]}.

(** ** The origin of a request *)

(** The URL the runtime requests for [path] on a page at [origin]: a path
    that starts with one slash is resolved against the origin, a path that
    starts with two names another host ([None] here), and anything else
    the gateway passes is an absolute URL. *)
Definition resolved_url (origin path : string) : option string :=
  match path with
  | String "/" (String "/" _) => None
  | String "/" _ => Some (origin +:+ path)
  | _ => Some path
  end.

(** Whether a request for [path] goes to the origin of the page. *)
Definition same_origin (origin path : string) : bool :=
  match resolved_url origin path with
  | Some url => String.eqb url origin || String.prefix (origin +:+ "/") url
  | None => false
  end.

(** The calls that can throw before they reach dispatch: [uploadClip]
    encodes its sentence, and three methods hand a value of the caller to
    [JSON.stringify], which throws on values outside the model (a BigInt,
    an object that contains itself). *)
Definition may_throw_first (c : Call) : bool :=
  match c with
  | UploadClip _ _ _ | SaveAccount _ | CreateGoal _ | Report _ => true
  | _ => false
  end.

(** ** Classes of endpoint calls *)


(** The calls whose method reads [this.locale], directly or through
    [getLocalePath] and [getClipPath]. *)
Definition uses_locale (c : Call) : bool :=
  match c with
  | FetchRandomSentences _ | FetchRandomClips _ | UploadClip _ _ _
  | SaveVote _ _ | FetchValidatedHours | FetchDailyClipsCount
  | FetchDailyVotesCount | FetchDocument _ | FetchLeaderboard _ _
  | SaveHasDownloaded _ => true
  | _ => false
  end.


(** A visible ASCII character: what a header value may hold unescaped. *)
Definition header_safe (c : ascii) : bool :=
  let n := N_of_ascii c in (33 <=? n)%N && (n <=? 126)%N.


(** * Properties *)

(** ** JSON: the text of a value parses back to it *)

Lemma parse_quote_char (c : ascii) (rest : string) :
  parse_chars SPlain (quote_char c rest)
  = cons_char c (parse_chars SPlain rest).
Proof. each_char c; reflexivity. Qed.

Lemma parse_quote_chars (s k : string) :
  parse_chars SPlain (quote_chars s (String dquote k)) = Some (s, k).
Proof.
  induction s as [|c s IH]; [done|].
  simpl. by rewrite parse_quote_char, IH.
Qed.

Lemma delimited_inv k :
  delimited k = true ->
  k = EmptyString \/ exists r, k = String "," r \/ k = String "]" r \/ k = String "}" r.
Proof.
  destruct k as [|c r]; [by left|].
  intros H. right. exists r.
  each_char c; try discriminate H; auto.
Qed.

Lemma parse_digits_delimited k :
  delimited k = true -> parse_digits k = (Nil, k) /\ number_goes_on k = false.
Proof.
  intros [->|(r & [->|[->| ->]])]%delimited_inv; done.
Qed.

Lemma parse_digits_uint u k :
  delimited k = true -> parse_digits (uint_to u k) = (u, k).
Proof.
  intros Hk. induction u; simpl; rewrite ?IHu; try done.
  by apply parse_digits_delimited.
Qed.

Lemma to_uint_normal p : unorm (Pos.to_uint p) = Pos.to_uint p.
Proof.
  rewrite <- (DecimalPos.Unsigned.to_of (Pos.to_uint p)).
  by rewrite DecimalPos.Unsigned.of_to.
Qed.

Lemma numeral_ok_to_uint p : numeral_ok (Pos.to_uint p) = true.
Proof.
  pose proof (to_uint_normal p) as Hn.
  pose proof (Unsigned.to_uint_nonnil p) as Hnil.
  pose proof (Unsigned.to_uint_nonzero p) as Hz.
  destruct (Pos.to_uint p) as [|u| | | | | | | | |]; try done.
  destruct u as [|u| | | | | | | | |]; try done; exfalso;
    rewrite unorm_D0 in Hn;
    match type of Hn with
    | unorm ?d = _ =>
        assert (Hd : d <> Nil) by discriminate;
        pose proof (nb_digits_unorm d Hd) as Hle;
        rewrite Hn in Hle; simpl in Hle; lia
    end.
Qed.

Lemma parse_number_unsigned u k :
  delimited k = true -> numeral_ok u = true ->
  parse_number (uint_to u k) = in_range (Z.of_int (Pos u)) k.
Proof.
  intros Hk Hu. unfold parse_number.
  assert (Hd : (let '(negative, s') :=
            match uint_to u k with
            | String "-"%char r => (true, r)
            | _ => (false, uint_to u k)
            end in
          let '(u, r) := parse_digits s' in
          if negb (numeral_ok u) || number_goes_on r then None
          else if negative
               then (if Z.eqb (Z.of_int (Neg u)) 0 then None
                     else in_range (Z.of_int (Neg u)) r)
               else in_range (Z.of_int (Pos u)) r)
          = (let '(u, r) := parse_digits (uint_to u k) in
          if negb (numeral_ok u) || number_goes_on r then None
          else in_range (Z.of_int (Pos u)) r)).
  { destruct u; try done. }
  rewrite Hd, parse_digits_uint by done.
  rewrite Hu. simpl. by destruct (parse_digits_delimited k Hk) as [_ ->].
Qed.

Lemma parse_number_int z k :
  delimited k = true -> safe_integer z = true ->
  parse_number (int_to z k) = Some (z, k).
Proof.
  intros Hk Hz. unfold int_to.
  destruct z as [|p|p]; simpl.
  - by destruct (delimited_inv k Hk) as [->|(r & [->|[->| ->]])].
  - rewrite parse_number_unsigned by auto using numeral_ok_to_uint.
    pose proof (DecimalZ.of_to (Z.pos p)) as H. cbn [Z.to_int] in H.
    rewrite H. unfold in_range. by rewrite Hz.
  - unfold parse_number. rewrite parse_digits_uint by done.
    rewrite numeral_ok_to_uint. simpl.
    destruct (parse_digits_delimited k Hk) as [_ ->].
    pose proof (DecimalZ.of_to (Z.neg p)) as H. cbn [Z.to_int Z.of_int] in H.
    rewrite H. simpl. unfold in_range. by rewrite Hz.
Qed.

Lemma parse_value_int fuel z k :
  delimited k = true -> safe_integer z = true ->
  parse_value (S fuel) (int_to z k) = Some (JNum (NInt z), k).
Proof.
  intros Hk Hz.
  assert (H : parse_value (S fuel) (int_to z k)
              = '(z, r') ← parse_number (int_to z k); Some (JNum (NInt z), r')).
  { unfold int_to. destruct z as [|p|p]; simpl; [done| |done].
    pose proof (Unsigned.to_uint_nonnil p) as Hnil.
    by destruct (Pos.to_uint p). }
  rewrite H, parse_number_int by done. done.
Qed.

Lemma serialize_to_array l k :
  serialize_to (JArr l) k = String "[" (elements_to l true k).
Proof.
  simpl. f_equal.
  match goal with
  | |- ?f l true = _ => enough (H : forall b, f l b = elements_to l b k) by done
  end.
  induction l as [|x l IH]; intros b; [done|].
  simpl. by rewrite IH.
Qed.

Lemma serialize_to_object ps k :
  serialize_to (JObj ps) k = String "{" (members_to ps true k).
Proof.
  simpl. f_equal.
  match goal with
  | |- ?f ps true = _ => enough (H : forall b, f ps b = members_to ps b k) by done
  end.
  induction ps as [|[key x] ps IH]; intros b; [done|].
  simpl. by rewrite !IH.
Qed.

Lemma serialize_to_opens v k :
  json_value v = true -> opens_value (serialize_to v k) = true.
Proof.
  destruct v as [| |[]|[z| |]|s|l|ps| |]; try done.
  intros _. simpl. unfold int_to.
  destruct z as [|p|p]; simpl; try done.
  pose proof (Unsigned.to_uint_nonnil p) as Hnil.
  by destruct (Pos.to_uint p).
Qed.

Lemma not_empty_array {T} (A : string -> T) (B : T) (s : string) :
  opens_value s = true ->
  match skip_ws s with
  | String "]"%char r' => A r'
  | _ => B
  end = B.
Proof.
  destruct s as [|c r]; [done|].
  each_char c; try done.
Qed.

Lemma parse_value_array fuel s :
  opens_value s = true ->
  parse_value (S fuel) (String "[" s)
  = '(l, r') ← parse_elements fuel s; Some (JArr l, r').
Proof.
  intros H. simpl. by rewrite not_empty_array.
Qed.

Lemma elements_to_delimited l k : delimited (elements_to l false k) = true.
Proof. by destruct l. Qed.

Lemma members_to_delimited ps k : delimited (members_to ps false k) = true.
Proof.
  induction ps as [|[key x] ps IH]; [done|].
  by destruct x.
Qed.

Lemma members_to_cons key x ps first k :
  json_value x = true ->
  members_to ((key, x) :: ps) first k
  = separator first
      (QuoteJSONString key (String ":" (serialize_to x (members_to ps false k)))).
Proof. by destruct x. Qed.

Lemma parse_elements_step fuel s :
  parse_elements (S fuel) s
  = '(v, r) ← parse_value fuel s;
    match skip_ws r with
    | String ","%char r' =>
        '(l, r'') ← parse_elements fuel r'; Some (v :: l, r'')
    | String "]"%char r' => Some ([v], r')
    | _ => None
    end.
Proof. reflexivity. Qed.

Lemma parse_members_step fuel key s :
  parse_members (S fuel) (QuoteJSONString key (String ":" s))
  = '(v, r3) ← parse_value fuel s;
    match skip_ws r3 with
    | String ","%char r4 =>
        '(ms, r5) ← parse_members fuel r4; Some ((key, v) :: ms, r5)
    | String "}"%char r4 => Some ([(key, v)], r4)
    | _ => None
    end.
Proof.
  unfold QuoteJSONString.
  change (parse_members (S fuel) (String dquote ?r))
    with ('(key, r1) ← parse_chars SPlain r;
          match skip_ws r1 with
          | String ":"%char r2 =>
              '(v, r3) ← parse_value fuel r2;
              match skip_ws r3 with
              | String ","%char r4 =>
                  '(ms, r5) ← parse_members fuel r4; Some ((key, v) :: ms, r5)
              | String "}"%char r4 => Some ([(key, v)], r4)
              | _ => None
              end
          | _ => None
          end).
  by rewrite parse_quote_chars.
Qed.

Lemma parse_value_string fuel s k :
  parse_value (S fuel) (QuoteJSONString s k) = Some (JStr s, k).
Proof.
  unfold QuoteJSONString.
  change (parse_value (S fuel) (String dquote ?r))
    with ('(str, r') ← parse_chars SPlain r; Some (JStr str, r')).
  by rewrite parse_quote_chars.
Qed.

Lemma parse_value_object fuel key s :
  parse_value (S fuel) (String "{" (QuoteJSONString key s))
  = '(ms, r') ← parse_members fuel (QuoteJSONString key s);
    Some (JObj (make_object ms), r').
Proof. reflexivity. Qed.

Lemma parse_elements_to x l k fuel :
  Forall parses_back (x :: l) ->
  forallb json_value (x :: l) = true ->
  delimited k = true ->
  (list_sum (map (fun x => S (weight x)) (x :: l)) <= fuel)%nat ->
  parse_elements fuel (serialize_to x (elements_to l false k))
  = Some (x :: l, k).
Proof.
  revert x fuel. induction l as [|y l IH]; intros x fuel HP Hj Hk Hf.
  - apply Forall_cons_1 in HP as [Hx _].
    simpl in Hj, Hf. apply andb_prop in Hj as [Hjx _].
    destruct fuel as [|fuel]; [lia|].
    rewrite parse_elements_step. simpl elements_to.
    rewrite (Hx Hjx) by (done || lia). done.
  - apply Forall_cons_1 in HP as [Hx HP].
    simpl in Hj, Hf. apply andb_prop in Hj as [Hjx Hj].
    destruct fuel as [|fuel]; [lia|].
    rewrite parse_elements_step.
    change (elements_to (y :: l) false k)
      with (String "," (serialize_to y (elements_to l false k))).
    rewrite (Hx Hjx) by (done || lia). simpl.
    rewrite IH by (done || simpl; lia). done.
Qed.

Lemma parse_members_to key x ps k fuel :
  Forall (fun p => parses_back (snd p)) ((key, x) :: ps) ->
  forallb (fun p => json_value (snd p)) ((key, x) :: ps) = true ->
  delimited k = true ->
  (list_sum (map (fun p => S (weight (snd p))) ((key, x) :: ps)) <= fuel)%nat ->
  parse_members fuel
    (QuoteJSONString key (String ":" (serialize_to x (members_to ps false k))))
  = Some ((key, x) :: ps, k).
Proof.
  revert key x fuel.
  induction ps as [|[key' y] ps IH]; intros key x fuel HP Hj Hk Hf.
  - apply Forall_cons_1 in HP as [Hx _].
    simpl in Hx, Hj, Hf. apply andb_prop in Hj as [Hjx _].
    destruct fuel as [|fuel]; [lia|].
    rewrite parse_members_step. simpl members_to.
    rewrite (Hx Hjx) by (done || lia). done.
  - apply Forall_cons_1 in HP as [Hx HP].
    simpl in Hx, Hj, Hf. apply andb_prop in Hj as [Hjx Hj].
    pose proof Hj as Hj'. apply andb_prop in Hj' as [Hjy _].
    destruct fuel as [|fuel]; [lia|].
    rewrite parse_members_step.
    rewrite (members_to_cons key' y ps false k Hjy).
    change (separator false ?s) with (String "," s).
    rewrite (Hx Hjx) by (done || lia). simpl.
    rewrite IH by (done || simpl; lia). done.
Qed.

Lemma insert_property_last key v ps :
  Forall (fun p => comes_before key (fst p) = false) ps ->
  insert_property key v ps = ps ++ [(key, v)].
Proof.
  induction ps as [|[key' v'] ps IH]; intros H; [done|].
  apply Forall_cons_1 in H as [Hc H]. simpl in *.
  by rewrite Hc, IH.
Qed.

Lemma has_property_fresh key ps :
  key ∉ map fst ps -> has_property key ps = false.
Proof.
  induction ps as [|[key' v'] ps IH]; intros Hk; [done|].
  simpl in *. apply not_elem_of_cons in Hk as [Hne Hk].
  destruct (String.eqb_spec key' key) as [->|_]; [done|].
  by apply IH.
Qed.

Lemma enumeration_ordered_before l1 key l2 :
  enumeration_ordered (l1 ++ key :: l2) = true ->
  Forall (fun key' => comes_before key key' = false) l1.
Proof.
  induction l1 as [|key' l1 IH]; intros H; [constructor|].
  simpl in H. apply andb_prop in H as [Hall H].
  constructor; [|by apply IH].
  rewrite forallb_app in Hall. apply andb_prop in Hall as [_ Hall].
  simpl in Hall. apply andb_prop in Hall as [Hc _].
  by destruct (comes_before key key').
Qed.

Lemma make_object_distinct ps :
  NoDup (map fst ps) -> enumeration_ordered (map fst ps) = true ->
  make_object ps = ps.
Proof.
  unfold make_object.
  enough (H : forall acc,
            NoDup (map fst (acc ++ ps)) ->
            enumeration_ordered (map fst (acc ++ ps)) = true ->
            fold_left (fun o m => set_property (fst m) (snd m) o) ps acc
            = acc ++ ps) by apply (H []).
  induction ps as [|[key v] ps IH]; intros acc Hnd Ho; simpl.
  - by rewrite List.app_nil_r.
  - assert (Hset : set_property key v acc = acc ++ [(key, v)]).
    { unfold set_property. rewrite has_property_fresh.
      - apply insert_property_last.
        rewrite map_app in Ho. simpl in Ho.
        apply enumeration_ordered_before in Ho.
        by apply Forall_map in Ho.
      - rewrite map_app in Hnd. apply NoDup_app in Hnd as (_ & Hd & _).
        intros Hin. apply (Hd _ Hin). simpl. left. }
    rewrite Hset, IH; rewrite <- List.app_assoc; done.
Qed.

Lemma parse_serialize_to v : parses_back v.
Proof.
  induction v as [| |b|n|s|l IH|ps IH|b|c m] using JSValue_nested_ind;
    intros Hj k fuel Hk Hf; try discriminate Hj;
    (destruct fuel as [|fuel]; [simpl in Hf; lia|]).
  - reflexivity.
  - by destruct b.
  - destruct n; try discriminate Hj. by apply parse_value_int.
  - apply parse_value_string.
  - rewrite serialize_to_array.
    destruct l as [|x l]; [reflexivity|].
    change (elements_to (x :: l) true k)
      with (serialize_to x (elements_to l false k)).
    simpl in Hj.
    rewrite parse_value_array.
    2: { apply serialize_to_opens. by apply andb_prop in Hj as [-> _]. }
    rewrite parse_elements_to; try done.
    simpl in Hf. simpl. lia.
  - rewrite serialize_to_object.
    simpl in Hj. apply andb_prop in Hj as [Hj Ho].
    apply andb_prop in Hj as [Hj Hnd].
    apply bool_decide_eq_true_1 in Hnd.
    destruct ps as [|[key x] ps]; [reflexivity|].
    pose proof Hj as Hj'. simpl in Hj'. apply andb_prop in Hj' as [Hjx _].
    rewrite (members_to_cons key x ps true k Hjx).
    change (separator true ?s) with s.
    rewrite parse_value_object.
    rewrite parse_members_to; try done.
    + simpl. by rewrite make_object_distinct.
    + simpl in Hf. simpl. lia.
Qed.

(** *** The fuel [JSON_parse] starts with is enough *)

Lemma length_quote_char c k :
  (S (String.length k) <= String.length (quote_char c k))%nat.
Proof. each_char c; simpl; lia. Qed.

Lemma length_quote_chars s k :
  (String.length k <= String.length (quote_chars s k))%nat.
Proof.
  induction s as [|c s IH]; simpl; [lia|].
  pose proof (length_quote_char c (quote_chars s k)). lia.
Qed.

Lemma length_QuoteJSONString s k :
  (2 + String.length k <= String.length (QuoteJSONString s k))%nat.
Proof.
  unfold QuoteJSONString. simpl.
  pose proof (length_quote_chars s (String dquote k)) as H. simpl in H. lia.
Qed.

Lemma length_uint_to u k :
  String.length (uint_to u k) = (nb_digits u + String.length k)%nat.
Proof. induction u; simpl; lia. Qed.

Lemma length_int_to z k :
  (1 + String.length k <= String.length (int_to z k))%nat.
Proof.
  unfold int_to. destruct z as [|p|p]; simpl; [lia| |].
  - pose proof (Unsigned.to_uint_nonnil p).
    rewrite length_uint_to. destruct (Pos.to_uint p); simpl; done || lia.
  - rewrite length_uint_to. lia.
Qed.

Lemma length_elements_to l (first : bool) k :
  Forall long_enough l -> forallb json_value l = true ->
  (list_sum (map (fun x => S (weight x)) l) + String.length k
   + (if first then 0 else 1)
   <= String.length (elements_to l first k))%nat.
Proof.
  revert first. induction l as [|x l IH]; intros first HP Hj.
  - destruct first; simpl; lia.
  - apply Forall_cons_1 in HP as [Hx HP].
    simpl in Hj. apply andb_prop in Hj as [Hjx Hj].
    specialize (IH false HP Hj).
    pose proof (Hx Hjx (elements_to l false k)) as Hl.
    simpl in IH. destruct first; simpl; lia.
Qed.

Lemma length_members_to ps (first : bool) k :
  Forall (fun p => long_enough (snd p)) ps ->
  forallb (fun p => json_value (snd p)) ps = true ->
  (list_sum (map (fun p => S (weight (snd p))) ps) + String.length k
   + (if first then 0 else 1)
   <= String.length (members_to ps first k))%nat.
Proof.
  revert first. induction ps as [|[key x] ps IH]; intros first HP Hj.
  - destruct first; simpl; lia.
  - apply Forall_cons_1 in HP as [Hx HP].
    simpl in Hx, Hj. apply andb_prop in Hj as [Hjx Hj].
    specialize (IH false HP Hj).
    rewrite (members_to_cons key x ps first k Hjx).
    pose proof (Hx Hjx (members_to ps false k)) as Hl.
    pose proof (length_QuoteJSONString key
                  (String ":" (serialize_to x (members_to ps false k)))) as Hq.
    simpl in Hq, IH.
    destruct first; simpl; lia.
Qed.

Lemma weight_le_length v : long_enough v.
Proof.
  induction v as [| |b|n|s|l IH|ps IH|b|c m] using JSValue_nested_ind;
    intros Hj k; try discriminate Hj.
  - cbv [serialize_to String.append]. simpl. lia.
  - destruct b; cbv [serialize_to String.append]; simpl; lia.
  - destruct n; try discriminate Hj. simpl.
    pose proof (length_int_to z k). lia.
  - simpl weight. change (serialize_to (JStr s) k) with (QuoteJSONString s k).
    pose proof (length_QuoteJSONString s k). lia.
  - rewrite serialize_to_array. simpl in Hj.
    pose proof (length_elements_to l true k IH Hj) as Hl. simpl in Hl.
    simpl. lia.
  - rewrite serialize_to_object. simpl in Hj.
    apply andb_prop in Hj as [Hj _]. apply andb_prop in Hj as [Hj _].
    pose proof (length_members_to ps true k IH Hj) as Hl. simpl in Hl.
    simpl. lia.
Qed.

(** Round trip: a JSON-representable value is serialised to a text that
    [JSON.parse] maps back to the value. *)
Lemma JSON_parse_stringify v :
  json_value v = true ->
  exists txt, JSON_stringify v = Some txt /\ JSON_parse txt = Some v.
Proof.
  intros Hj. exists (serialize_to v "").
  split; [by destruct v|].
  unfold JSON_parse.
  pose proof (weight_le_length v Hj "") as Hl. simpl in Hl.
  rewrite (parse_serialize_to v Hj) by (done || lia). done.
Qed.

(** ** Dispatch: what a run records *)

Lemma removals_app key evs evs' :
  removals key (evs ++ evs') = (removals key evs + removals key evs')%nat.
Proof. unfold removals. by rewrite List.filter_app, List.length_app. Qed.

Lemma reloads_app evs evs' :
  reloads (evs ++ evs') = (reloads evs + reloads evs')%nat.
Proof. unfold reloads. by rewrite List.filter_app, List.length_app. Qed.

Lemma body_reads_app evs evs' :
  body_reads (evs ++ evs') = (body_reads evs + body_reads evs')%nat.
Proof. unfold body_reads. by rewrite List.filter_app, List.length_app. Qed.

Lemma requests_app evs evs' :
  requests (evs ++ evs') = requests evs ++ requests evs'.
Proof. unfold requests. apply omap_app. Qed.

Create Rewrite HintDb observations.
#[local] Hint Rewrite removals_app reloads_app body_reads_app requests_app
  : observations.

(** ** Dispatch: response classification *)

Section Classification.

Variable origin : string.
Variable USER_KEY : string.
Variable transport : Request -> Settled Response.
Variable this : API.
Variable path : string.
Variable options : FetchOptions.

(** The run of a call whose response has status 401. *)
Lemma fetch_401 w resp :
  transport (build_request origin this path options) = Fulfilled resp ->
  status resp = 401 ->
  fetch origin USER_KEY transport this path options w =
    (Fulfilled JUndefined,
     mkWorld (delete USER_KEY (localStorage w))
             (((events w ++ [Fetched (build_request origin this path options)])
                 ++ [ItemRemoved USER_KEY])
                ++ [Reloaded])).
Proof. intros Ht Hs. run_fetch. by rewrite Ht, Hs. Qed.

(** C1: when the response has status 401, the call removes [USER_KEY]
    from the persisted store and triggers a reload, each exactly once, and
    hands no value to its caller: the promise settles with [undefined]
    (the bare [return]), which is neither a decoded payload (the body of
    the response is never read) nor a rejection the caller could catch. *)
Theorem unauthorized_clears_session_and_reloads w resp :
  transport (build_request origin this path options) = Fulfilled resp ->
  status resp = 401 ->
  let '(outcome, w') := fetch origin USER_KEY transport this path options w in
  localStorage w' = delete USER_KEY (localStorage w)
  /\ localStorage w' !! USER_KEY = None
  /\ removals USER_KEY (events w') = S (removals USER_KEY (events w))
  /\ reloads (events w') = S (reloads (events w))
  /\ body_reads (events w') = body_reads (events w)
  /\ outcome = Fulfilled JUndefined
  /\ (forall e, outcome <> Rejected e).
Proof.
  intros Ht Hs. rewrite (fetch_401 w resp Ht Hs). simpl.
  repeat split.
  - apply lookup_delete_eq.
  - autorewrite with observations. unfold removals at 2 3 4. simpl.
    rewrite String.eqb_refl. simpl. lia.
  - autorewrite with observations. unfold reloads at 2 3 4. simpl. lia.
  - autorewrite with observations. unfold body_reads at 2 3 4. simpl. lia.
  - discriminate.
Qed.

(** C2: when the status is at least 400 and not 401, a status text equal
    to "save_clip_error" makes the call fail with an error whose message
    is that token, whatever the body holds (the body is not read); any
    other status text makes it fail with an error whose message is the
    text of the body.  The test on the token comes first and looks at
    [statusText]. *)
Theorem failure_status_classification w resp :
  transport (build_request origin this path options) = Fulfilled resp ->
  400 <= status resp ->
  status resp <> 401 ->
  (statusText resp = "save_clip_error" ->
     fetch origin USER_KEY transport this path options w =
       (Rejected (JError Error "save_clip_error"),
        mkWorld (localStorage w)
                (events w ++ [Fetched (build_request origin this path options)])))
  /\ (statusText resp <> "save_clip_error" ->
      forall t, text resp = Fulfilled t ->
        fetch origin USER_KEY transport this path options w =
          (Rejected (JError Error t),
           mkWorld (localStorage w)
                   ((events w
                       ++ [Fetched (build_request origin this path options)])
                      ++ [TextRead]))).
Proof.
  intros Ht Hge Hne. run_fetch. rewrite Ht.
  destruct (Z.eqb_spec (status resp) 401) as [|_]; [contradiction|].
  destruct (Z.leb_spec 400 (status resp)) as [_|]; [|lia].
  split.
  - intros Hst. by rewrite Hst.
  - intros Hst t Htext.
    destruct (String.eqb_spec (statusText resp) "save_clip_error") as [|_];
      [contradiction|].
    simpl. by rewrite Htext.
Qed.

End Classification.

Lemma unauthorized_example :
  status unauthorized = 401
  /\ (let '(outcome, w') :=
        fetch sample_origin sample_key (answer unauthorized)
          (mkAPI (Some "fr") anonymous) "/locales/fr/messages.ftl" no_options
          sample_world in
      localStorage w' = delete sample_key (localStorage sample_world)
      /\ localStorage w' !! sample_key = None
      /\ removals sample_key (events w')
         = S (removals sample_key (events sample_world))
      /\ reloads (events w') = S (reloads (events sample_world))
      /\ body_reads (events w') = body_reads (events sample_world)
      /\ outcome = Fulfilled JUndefined
      /\ (forall e, outcome <> Rejected e)).
Proof.
  split; [reflexivity|].
  apply (unauthorized_clears_session_and_reloads sample_origin sample_key
           (answer unauthorized) (mkAPI (Some "fr") anonymous)
           "/locales/fr/messages.ftl" no_options sample_world unauthorized);
    reflexivity.
Defined.

Lemma failure_status_example :
  fetch sample_origin sample_key (answer clip_rejected)
    (mkAPI None anonymous) "/clips" no_options sample_world
  = (Rejected (JError Error "save_clip_error"),
     mkWorld (localStorage sample_world)
       (events sample_world
          ++ [Fetched (build_request sample_origin (mkAPI None anonymous)
                         "/clips" no_options)]))
  /\ fetch sample_origin sample_key (answer server_failure)
       (mkAPI None anonymous) "/clips" no_options sample_world
     = (Rejected (JError Error "internal error"),
        mkWorld (localStorage sample_world)
          ((events sample_world
              ++ [Fetched (build_request sample_origin (mkAPI None anonymous)
                             "/clips" no_options)])
             ++ [TextRead])).
Proof.
  split.
  - apply (failure_status_classification sample_origin sample_key
             (answer clip_rejected) (mkAPI None anonymous) "/clips" no_options
             sample_world clip_rejected);
      [reflexivity | simpl; lia | discriminate | reflexivity].
  - apply (failure_status_classification sample_origin sample_key
             (answer server_failure) (mkAPI None anonymous) "/clips"
             no_options sample_world server_failure);
      [reflexivity | simpl; lia | discriminate | discriminate | reflexivity].
Defined.

(** ** Dispatch: the outgoing request *)

Section Outgoing.

Variable origin : string.
Variable USER_KEY : string.
Variable transport : Request -> Settled Response.
Variable this : API.
Variable path : string.
Variable options : FetchOptions.

(** A call performs one round trip, with the request [build_request]
    describes. *)
Lemma fetch_sends_one_request w :
  requests (events (fetch origin USER_KEY transport this path options w).2)
  = requests (events w) ++ [build_request origin this path options].
Proof.
  run_fetch.
  destruct (transport _) as [resp|e]; simpl.
  2: { by rewrite requests_app. }
  repeat (match goal with
          | |- context [if ?b then _ else _] => destruct b
          | |- context [match ?x with Fulfilled _ => _ | Rejected _ => _ end] =>
              destruct x
          end; simpl);
    rewrite ?requests_app; unfold requests; simpl;
    by rewrite <- ?List.app_assoc, ?List.app_nil_r.
Qed.

Lemma merged_headers_supplied k v :
  supplied options k = Some v -> merged_headers options !! k = Some v.
Proof.
  unfold supplied, merged_headers, Object_assign.
  destruct (headers options) as [hs|]; simpl; [|discriminate].
  intros H. by apply lookup_union_Some_l.
Qed.

Lemma merged_headers_not_supplied k :
  supplied options k = None ->
  merged_headers options !! k =
    (if default true (isJSON options)
     then {[ "Content-Type" := "application/json; charset=utf-8" ]}
     else ∅ : gmap string string) !! k.
Proof.
  unfold supplied, merged_headers, Object_assign.
  destruct (headers options) as [hs|]; simpl; [|done].
  intros H. by rewrite lookup_union_r.
Qed.

Lemma headers_with_account :
  truthy (account (user this)) = true ->
  req_headers (build_request origin this path options)
  = merged_headers options.
Proof.
  intros Ha. unfold build_request, finalHeaders; simpl.
  by rewrite Ha, andb_false_r.
Qed.

Lemma no_client_id_with_account :
  truthy (account (user this)) = true ->
  supplied options "client_id" = None ->
  req_headers (build_request origin this path options) !! "client_id" = None.
Proof.
  intros Ha Hs.
  rewrite headers_with_account, (merged_headers_not_supplied _ Hs) by done.
  by destruct (default true (isJSON options)).
Qed.

(** C9: when the anonymous identifier is attached it is written after the
    merge, so a [client_id] header of the caller, which the merge had
    kept, is replaced by [userId]. *)
Theorem client_id_overwrites_supplied_header :
  String.prefix origin path = true ->
  truthy (account (user this)) = false ->
  req_headers (build_request origin this path options)
    = <[ "client_id" := userId (user this) ]> (merged_headers options)
  /\ (forall v, supplied options "client_id" = Some v ->
        merged_headers options !! "client_id" = Some v
        /\ req_headers (build_request origin this path options) !! "client_id"
           = Some (userId (user this))).
Proof.
  intros Hp Ha. unfold build_request, finalHeaders; simpl.
  rewrite Hp, Ha; simpl. split; [done|].
  intros v Hv. split.
  - by apply merged_headers_supplied.
  - apply lookup_insert_eq.
Qed.

(** C5: in JSON mode the default content type is in place before the
    caller's headers are merged over it: it is what the request carries
    when the caller names no content type, and every header the caller
    supplies keeps the caller's value after the merge and, [client_id]
    apart, in the request.  So a request with a [Blob] body and a content
    type of the caller carries that content type and the blob. *)
Theorem caller_headers_win_over_json_default :
  default true (isJSON options) = true ->
  (supplied options "Content-Type" = None ->
     req_headers (build_request origin this path options) !! "Content-Type"
       = Some "application/json; charset=utf-8")
  /\ (forall k v, supplied options k = Some v ->
        merged_headers options !! k = Some v)
  /\ (forall k v, supplied options k = Some v -> k <> "client_id" ->
        req_headers (build_request origin this path options) !! k = Some v)
  /\ (forall ct blob,
        supplied options "Content-Type" = Some ct ->
        body options = JBlob blob ->
        req_headers (build_request origin this path options) !! "Content-Type"
          = Some ct
        /\ req_body (build_request origin this path options)
           = Some (BodyBlob blob)).
Proof.
  intros Hj.
  assert (Hkeep : forall k v, supplied options k = Some v ->
            k <> "client_id" ->
            req_headers (build_request origin this path options) !! k
            = Some v).
  { intros k v Hs Hk. unfold build_request, finalHeaders; simpl.
    destruct (_ && _); [rewrite lookup_insert_ne by done|];
      by apply merged_headers_supplied. }
  split; [|split; [|split]].
  - intros Hs. unfold build_request, finalHeaders; simpl.
    destruct (_ && _); [rewrite lookup_insert_ne by done|];
      rewrite (merged_headers_not_supplied _ Hs), Hj; done.
  - apply merged_headers_supplied.
  - exact Hkeep.
  - intros ct blob Hs Hb. split.
    + by apply Hkeep.
    + unfold build_request, request_body; simpl. by rewrite Hb.
Qed.

(** C10: a body that is present but falsy ([false], [0], the empty
    string, [null], [NaN]) is not serialised: the request has no body, as
    if the caller had passed none. *)
Theorem falsy_body_is_omitted :
  truthy (body options) = false ->
  req_body (build_request origin this path options) = None
  /\ build_request origin this path options
     = build_request origin this path
         (mkOptions (method options) (isJSON options) (headers options)
                    JUndefined).
Proof.
  intros Hb.
  unfold build_request, finalHeaders, merged_headers, request_body; simpl.
  by rewrite Hb.
Qed.


End Outgoing.

Lemma client_id_overwrites_example :
  String.prefix sample_origin (API_PATH sample_origin +:+ "/reports") = true
  /\ truthy (account anonymous) = false
  /\ supplied (mkOptions None None (Some {[ "client_id" := "spoofed" ]})
                 JUndefined) "client_id" = Some "spoofed"
  /\ req_headers
       (build_request sample_origin (mkAPI None anonymous)
          (API_PATH sample_origin +:+ "/reports")
          (mkOptions None None (Some {[ "client_id" := "spoofed" ]})
             JUndefined)) !! "client_id"
     = Some "client-1".
Proof.
  split; [reflexivity|]. split; [reflexivity|]. split; [reflexivity|].
  exact (proj2 (proj2 (client_id_overwrites_supplied_header sample_origin
                         (mkAPI None anonymous)
                         (API_PATH sample_origin +:+ "/reports")
                         (mkOptions None None
                            (Some {[ "client_id" := "spoofed" ]}) JUndefined)
                         eq_refl eq_refl)
                  "spoofed" eq_refl)).
Defined.

Lemma caller_content_type_example :
  default true (isJSON (mkOptions (Some POST) None
                          (Some {[ "Content-Type" := blob_type sample_blob ]})
                          (JBlob sample_blob))) = true
  /\ req_headers
       (build_request sample_origin (mkAPI (Some "fr") anonymous)
          (getClipPath sample_origin (mkAPI (Some "fr") anonymous))
          (mkOptions (Some POST) None
             (Some {[ "Content-Type" := blob_type sample_blob ]})
             (JBlob sample_blob))) !! "Content-Type"
     = Some "audio/ogg"
  /\ req_body
       (build_request sample_origin (mkAPI (Some "fr") anonymous)
          (getClipPath sample_origin (mkAPI (Some "fr") anonymous))
          (mkOptions (Some POST) None
             (Some {[ "Content-Type" := blob_type sample_blob ]})
             (JBlob sample_blob)))
     = Some (BodyBlob sample_blob).
Proof.
  split; [reflexivity|].
  apply (caller_headers_win_over_json_default sample_origin
           (mkAPI (Some "fr") anonymous)
           (getClipPath sample_origin (mkAPI (Some "fr") anonymous))
           (mkOptions (Some POST) None
              (Some {[ "Content-Type" := blob_type sample_blob ]})
              (JBlob sample_blob)) eq_refl);
    reflexivity.
Defined.

Lemma falsy_body_example :
  truthy (JNum (NInt 0)) = false
  /\ req_body
       (build_request sample_origin (mkAPI None anonymous)
          (API_PATH sample_origin +:+ "/reports")
          (mkOptions (Some POST) None None (JNum (NInt 0))))
     = None.
Proof.
  split; [reflexivity|].
  apply (falsy_body_is_omitted sample_origin (mkAPI None anonymous)
           (API_PATH sample_origin +:+ "/reports")
           (mkOptions (Some POST) None None (JNum (NInt 0))) eq_refl).
Defined.



(** ** Endpoints *)

Lemma settle_eta (m : Eff (Settled JSValue)) (w : World) :
  m w = (let '(r, w') := m w in ((fun x => x) r, w')).
Proof. by destruct (m w). Qed.

(** Every endpoint method is one dispatch call followed by a continuation
    on how that call settled; none supplies a [client_id] header. *)
Lemma invoke_is_one_dispatch (origin USER_KEY : string)
    (transport : Request -> Settled Response) (this : API) (c : Call) :
  exists path options (k : Settled JSValue -> Settled JSValue),
    (forall w,
       invoke origin USER_KEY transport this c w =
         (let '(r, w') := fetch origin USER_KEY transport this path options w
          in (k r, w')))
    /\ (forall e,
          k (Rejected e)
          = if is_SaveAvatarClip c then Fulfilled e else Rejected e)
    /\ supplied options "client_id" = None.
Proof.
  destruct c; simpl;
    try (eexists _, _, (fun x => x); split;
         [intros w; apply settle_eta | split; [done | reflexivity]]).
  - eexists _, _, (fun r => then_ r Object_entries).
    split; [intros w; reflexivity | split; [done | reflexivity]].
  - eexists _, _, (fun r => then_ r JSON_parse_value).
    split; [intros w; reflexivity | split; [done | reflexivity]].
  - eexists _, _,
      (fun r => catch_ (then_ r (fun body => Fulfilled body)) (fun err => err)).
    split; [intros w; reflexivity | split; [done | reflexivity]].
Qed.

(** C3, as the code has it: for a path that starts with the origin (the
    test the code makes; a relative path, though it is requested from the
    same origin, does not pass it), a user without account gets the header
    [client_id] set to [userId].  For a user with an account dispatch
    attaches nothing: the headers are the merged ones, so [client_id] is
    absent unless the caller supplied one, and no endpoint method does:
    whatever the call, no request it sends has a [client_id].  Nothing is
    attached either to a path that does not start with the origin. *)
Theorem client_id_header_follows_account (origin USER_KEY : string)
    (transport : Request -> Settled Response) (this : API) :
  (forall path options,
     String.prefix origin path = true ->
     truthy (account (user this)) = false ->
     req_headers (build_request origin this path options) !! "client_id"
     = Some (userId (user this)))
  /\ (forall path options,
        truthy (account (user this)) = true ->
        req_headers (build_request origin this path options)
        = merged_headers options
        /\ (supplied options "client_id" = None ->
            req_headers (build_request origin this path options)
              !! "client_id" = None))
  /\ (forall c w sent,
        truthy (account (user this)) = true ->
        requests (events (invoke origin USER_KEY transport this c w).2)
        = requests (events w) ++ sent ->
        Forall (fun req => req_headers req !! "client_id" = None) sent)
  /\ (forall path options,
        String.prefix origin path = false ->
        req_headers (build_request origin this path options)
        = merged_headers options).
Proof.
  split; [|split; [|split]].
  - intros path options Hp Ha. unfold build_request, finalHeaders; simpl.
    rewrite Hp, Ha. apply lookup_insert_eq.
  - intros path options Ha. split.
    + by apply headers_with_account.
    + by apply no_client_id_with_account.
  - intros c w sent Ha Hsent.
    destruct (invoke_is_one_dispatch origin USER_KEY transport this c)
      as (path & options & k & Hrun & _ & Hs).
    assert (Hone : requests
                     (events (invoke origin USER_KEY transport this c w).2)
                   = requests (events w)
                       ++ [build_request origin this path options]).
    { rewrite Hrun.
      rewrite <- (fetch_sends_one_request origin USER_KEY transport this
                    path options w).
      by destruct (fetch origin USER_KEY transport this path options w). }
    rewrite Hone in Hsent. apply app_inv_head in Hsent as <-.
    constructor; [|constructor]. by apply no_client_id_with_account.
  - intros path options Hp. unfold build_request, finalHeaders; simpl.
    by rewrite Hp.
Qed.

Lemma client_id_example :
  String.prefix sample_origin (API_PATH sample_origin +:+ "/user_client")
  = true
  /\ truthy (account anonymous) = false
  /\ truthy (account signed_in) = true
  /\ req_headers
       (build_request sample_origin (mkAPI None anonymous)
          (API_PATH sample_origin +:+ "/user_client") no_options)
       !! "client_id" = Some "client-1"
  /\ req_headers
       (build_request sample_origin (mkAPI None signed_in)
          (API_PATH sample_origin +:+ "/user_client") no_options)
       !! "client_id" = None.
Proof.
  split; [reflexivity|]. split; [reflexivity|]. split; [reflexivity|]. split.
  - exact (proj1 (client_id_header_follows_account sample_origin sample_key
                    (answer unauthorized) (mkAPI None anonymous))
             (API_PATH sample_origin +:+ "/user_client") no_options
             eq_refl eq_refl).
  - exact (proj2 (proj1 (proj2
             (client_id_header_follows_account sample_origin sample_key
                (answer unauthorized) (mkAPI None signed_in)))
             (API_PATH sample_origin +:+ "/user_client") no_options eq_refl)
             eq_refl).
Defined.

(** The claim C3 makes of every same-origin path fails for the message
    catalogue of a locale: its path is relative, the request goes to the
    origin of the page, and for a user without account it carries no
    [client_id] (no header at all). *)
Lemma same_origin_relative_path_has_no_client_id :
  resolved_url sample_origin "/locales/fr/messages.ftl"
  = Some "https://voice.example/locales/fr/messages.ftl"
  /\ same_origin sample_origin "/locales/fr/messages.ftl" = true
  /\ truthy (account anonymous) = false
  /\ String.prefix sample_origin "/locales/fr/messages.ftl" = false
  /\ requests
       (events
          (fetchLocaleMessages sample_origin sample_key (answer accepted)
             (mkAPI None anonymous) "fr" (mkWorld ∅ [])).2)
     = [mkRequest "/locales/fr/messages.ftl" GET ∅ "same-origin" None]
  /\ req_headers
       (mkRequest "/locales/fr/messages.ftl" GET ∅ "same-origin" None)
       !! "client_id" = None.
Proof.
  split; [reflexivity|]. split; [reflexivity|]. split; [reflexivity|].
  split; [reflexivity|]. split; [|reflexivity].
  unfold fetchLocaleMessages. rewrite fetch_sends_one_request. reflexivity.
Qed.

(** A relative path does not start with the origin, so its request goes
    out without [client_id] even for a user without account. *)
Example relative_path_has_no_client_id :
  requests
    (events
       (fetchLocaleMessages sample_origin sample_key (answer unauthorized)
          (mkAPI None anonymous) "fr" (mkWorld ∅ [])).2)
  = [mkRequest "/locales/fr/messages.ftl" GET ∅ "same-origin" None].
Proof.
  unfold fetchLocaleMessages. rewrite fetch_sends_one_request. reflexivity.
Qed.

(** C8: every endpoint method is one dispatch call followed by a
    continuation on how it settled.  For [saveAvatarClip] a rejection with
    [e] becomes a promise fulfilled with [e]; for each of the other methods
    the rejection is passed on with the same reason. *)
Theorem only_saveAvatarClip_swallows_failures (origin USER_KEY : string)
    (transport : Request -> Settled Response) (this : API) (c : Call) :
  exists path options (k : Settled JSValue -> Settled JSValue),
    (forall w,
       invoke origin USER_KEY transport this c w =
         (let '(r, w') := fetch origin USER_KEY transport this path options w
          in (k r, w')))
    /\ (forall e,
          k (Rejected e)
          = if is_SaveAvatarClip c then Fulfilled e else Rejected e)
    /\ (forall w e,
          (fetch origin USER_KEY transport this path options w).1 = Rejected e ->
          (invoke origin USER_KEY transport this c w).1
          = if is_SaveAvatarClip c then Fulfilled e else Rejected e).
Proof.
  destruct (invoke_is_one_dispatch origin USER_KEY transport this c)
    as (path & options & k & Hrun & Hk & _).
  exists path, options, k. split; [done|]. split; [done|].
  intros w e He. rewrite Hrun.
  destruct (fetch origin USER_KEY transport this path options w) as [r w'].
  simpl in *. by rewrite He, Hk.
Qed.

Lemma swallowed_failure_example :
  (saveAvatarClip sample_origin sample_key (answer server_failure)
     (mkAPI None signed_in) sample_blob sample_world).1
  = Fulfilled (JError Error "internal error")
  /\ (fetchAvatarClip sample_origin sample_key (answer server_failure)
        (mkAPI None signed_in) sample_world).1
     = Rejected (JError Error "internal error").
Proof.
  split.
  - destruct (only_saveAvatarClip_swallows_failures sample_origin sample_key
                (answer server_failure) (mkAPI None signed_in)
                (SaveAvatarClip sample_blob))
      as (path & options & k & _ & _ & H).
    apply (H sample_world (JError Error "internal error")). reflexivity.
  - destruct (only_saveAvatarClip_swallows_failures sample_origin sample_key
                (answer server_failure) (mkAPI None signed_in)
                FetchAvatarClip)
      as (path & options & k & _ & _ & H).
    apply (H sample_world (JError Error "internal error")). reflexivity.
Defined.

(** ** Path helpers *)

Lemma append_assoc (a b c : string) : (a +:+ b) +:+ c = a +:+ (b +:+ c).
Proof.
  induction a as [|x a IH]; [done|].
  change (String x ((a +:+ b) +:+ c) = String x (a +:+ (b +:+ c))).
  by rewrite IH.
Qed.

(** C6: the locale-scoped root is the API root followed by "/" and the
    locale when a locale is set ([this.locale] is truthy: a non-empty
    string), and the API root itself when none is ([null], or the empty
    string).  So, with locale "fr", fetching 3 random sentences sends one
    request, a GET for origin/api/v1/fr/sentences?count=3. *)
Theorem locale_scoped_root (origin USER_KEY : string)
    (transport : Request -> Settled Response) (u : User_State) :
  (forall l, l <> "" ->
     getLocalePath origin (mkAPI (Some l) u) = API_PATH origin +:+ "/" +:+ l)
  /\ getLocalePath origin (mkAPI None u) = API_PATH origin
  /\ getLocalePath origin (mkAPI (Some "") u) = API_PATH origin
  /\ (forall w,
        exists req,
          requests
            (events (fetchRandomSentences origin USER_KEY transport
                       (mkAPI (Some "fr") u) (Some (NInt 3)) w).2)
          = requests (events w) ++ [req]
          /\ req_url req = origin +:+ "/api/v1/fr/sentences?count=3"
          /\ req_method req = GET).
Proof.
  split; [|split; [|split]].
  - intros l Hl. unfold getLocalePath; simpl.
    by destruct (String.eqb_spec l "").
  - done.
  - done.
  - intros w. eexists. split.
    + unfold fetchRandomSentences. apply fetch_sends_one_request.
    + split; [|done]. simpl. unfold getLocalePath, API_PATH; simpl.
      by rewrite !append_assoc.
Qed.

Lemma locale_scoped_root_example :
  "fr" <> ""
  /\ getLocalePath sample_origin (mkAPI (Some "fr") anonymous)
     = "https://voice.example/api/v1/fr".
Proof.
  split; [discriminate|].
  apply (proj1 (locale_scoped_root sample_origin sample_key
                  (answer unauthorized) anonymous) "fr").
  discriminate.
Defined.

(** ** Re-scoping *)

(** C7: [forLocale] allocates a new gateway for the given locale that
    holds the reference to the user state the original holds (the same
    object, not a copy: what the caller later writes to it is what both
    gateways read); the original keeps its locale and its user, no other
    gateway and no user state is touched. *)
Theorem forLocale_shares_user_and_keeps_original
    (h : Heap) (this : nat) (l : string) (i : Instance) :
  gateways h !! this = Some i ->
  exists r h',
    forLocale this l h = Some (r, h')
    /\ r <> this
    /\ gateways h' !! r = Some (mkInstance (Some l) (this_user i))
    /\ gateways h' !! this = Some i
    /\ (forall r', r' <> r -> gateways h' !! r' = gateways h !! r')
    /\ user_objects h' = user_objects h
    /\ the_API h' this = the_API h this
    /\ the_API h' r = (fun a => mkAPI (Some l) (user a)) <$> the_API h this
    /\ (forall u',
          let h'' := mkHeap (<[ this_user i := u' ]> (user_objects h'))
                            (gateways h') in
          the_API h'' this = Some (mkAPI (this_locale i) u')
          /\ the_API h'' r = Some (mkAPI (Some l) u')).
Proof.
  intros Hi. unfold forLocale, new_API. rewrite Hi; simpl.
  set (r := fresh (dom (gateways h))).
  assert (Hr : gateways h !! r = None).
  { apply not_elem_of_dom. apply is_fresh. }
  assert (Hne : r <> this) by congruence.
  eexists _, _. split; [done|]. simpl.
  split; [done|]. split; [apply lookup_insert_eq|].
  split; [by rewrite lookup_insert_ne|].
  split; [intros r' Hr'; by rewrite lookup_insert_ne|].
  split; [done|].
  unfold the_API; simpl.
  rewrite lookup_insert_eq, lookup_insert_ne, Hi by done; simpl.
  split; [done|].
  split; [by destruct (user_objects h !! this_user i)|].
  intros u'. by rewrite lookup_insert_eq.
Qed.

Lemma forLocale_example :
  gateways sample_heap !! 0%nat = Some (mkInstance None 7%nat)
  /\ exists r h',
       forLocale 0%nat "cy" sample_heap = Some (r, h')
       /\ r <> 0%nat
       /\ gateways h' !! r = Some (mkInstance (Some "cy") 7%nat)
       /\ gateways h' !! 0%nat = Some (mkInstance None 7%nat)
       /\ user_objects h' = user_objects sample_heap.
Proof.
  split; [reflexivity|].
  destruct (forLocale_shares_user_and_keeps_original sample_heap 0%nat "cy"
              (mkInstance None 7%nat) eq_refl)
    as (r & h' & H1 & H2 & H3 & H4 & _ & H6 & _).
  exists r, h'. repeat split; assumption.
Defined.

(** * Further properties *)

(** ** Every run of the dispatch routine *)

Ltac count_events :=
  autorewrite with observations;
  unfold removals, reloads, body_reads; simpl;
  rewrite ?String.eqb_refl; simpl; try lia.

Ltac each_branch :=
  repeat (match goal with
          | |- context [if ?b then _ else _] => destruct b
          | |- context [match ?x with Fulfilled _ => _ | Rejected _ => _ end] =>
              destruct x
          end; simpl).

Lemma fetch_ok_json origin USER_KEY transport this path options w resp :
  transport (build_request origin this path options) = Fulfilled resp ->
  status resp < 400 ->
  default true (isJSON options) = true ->
  fetch origin USER_KEY transport this path options w =
    (json resp,
     mkWorld (localStorage w)
       ((events w ++ [Fetched (build_request origin this path options)])
          ++ [JsonRead])).
Proof.
  intros Ht Hs Hj. run_fetch. rewrite Ht.
  destruct (Z.eqb_spec (status resp) 401) as [|_]; [lia|].
  destruct (Z.leb_spec 400 (status resp)) as [|_]; [lia|].
  by rewrite Hj.
Qed.

Lemma fetch_ok_text origin USER_KEY transport this path options w resp :
  transport (build_request origin this path options) = Fulfilled resp ->
  status resp < 400 ->
  default true (isJSON options) = false ->
  fetch origin USER_KEY transport this path options w =
    (match text resp with
     | Fulfilled t => Fulfilled (JStr t)
     | Rejected e => Rejected e
     end,
     mkWorld (localStorage w)
       ((events w ++ [Fetched (build_request origin this path options)])
          ++ [TextRead])).
Proof.
  intros Ht Hs Hj. run_fetch. rewrite Ht.
  destruct (Z.eqb_spec (status resp) 401) as [|_]; [lia|].
  destruct (Z.leb_spec 400 (status resp)) as [|_]; [lia|].
  rewrite Hj. simpl. by destruct (text resp).
Qed.

Lemma fetch_store origin USER_KEY transport this path options w :
  localStorage (fetch origin USER_KEY transport this path options w).2
    = localStorage w
  \/ localStorage (fetch origin USER_KEY transport this path options w).2
    = delete USER_KEY (localStorage w).
Proof.
  run_fetch. destruct (transport _) as [resp|e]; simpl; [|by left].
  each_branch; auto.
Qed.

Section Runs.

Variable origin : string.
Variable USER_KEY : string.
Variable transport : Request -> Settled Response.
Variable this : API.
Variable path : string.
Variable options : FetchOptions.

(** X1: a response with a status below 400 is a success.  In JSON mode
    the call settles as [response.json()] does; in text mode it is
    fulfilled with the text of the body.  The body is read once and the
    store is left alone. *)
Theorem success_is_decoded_by_content_mode w resp :
  transport (build_request origin this path options) = Fulfilled resp ->
  status resp < 400 ->
  (default true (isJSON options) = true ->
     fetch origin USER_KEY transport this path options w =
       (json resp,
        mkWorld (localStorage w)
          ((events w ++ [Fetched (build_request origin this path options)])
             ++ [JsonRead])))
  /\ (default true (isJSON options) = false ->
      forall t, text resp = Fulfilled t ->
        fetch origin USER_KEY transport this path options w =
          (Fulfilled (JStr t),
           mkWorld (localStorage w)
             ((events w ++ [Fetched (build_request origin this path options)])
                ++ [TextRead]))).
Proof.
  intros Ht Hs. split.
  - intros Hj. by apply fetch_ok_json.
  - intros Hj t Htext.
    rewrite (fetch_ok_text origin USER_KEY transport this path options w resp)
      by done.
    by rewrite Htext.
Qed.


(** X3: unless the response has status 401, a call leaves the persisted
    store as it found it and does not reload the page, whether it
    succeeds, fails or the transport fails. *)
Theorem session_is_kept_unless_unauthorized w :
  (forall resp,
     transport (build_request origin this path options) = Fulfilled resp ->
     status resp <> 401) ->
  let w' := (fetch origin USER_KEY transport this path options w).2 in
  localStorage w' = localStorage w
  /\ removals USER_KEY (events w') = removals USER_KEY (events w)
  /\ reloads (events w') = reloads (events w).
Proof.
  intros Hn. run_fetch.
  destruct (transport _) as [resp|e] eqn:Ht; simpl.
  2: { split; [done|]. split; count_events. }
  specialize (Hn resp eq_refl).
  destruct (Z.eqb_spec (status resp) 401) as [|_]; [contradiction|].
  each_branch; (split; [done|]); split; count_events.
Qed.

(** X4: a call reads the body of its response at most once, and not at
    all when the status is 401, when a failure carries the status text
    "save_clip_error", or when the transport failed. *)
Theorem body_is_read_at_most_once w :
  let w' := (fetch origin USER_KEY transport this path options w).2 in
  (body_reads (events w') <= S (body_reads (events w)))%nat
  /\ (forall resp,
        transport (build_request origin this path options) = Fulfilled resp ->
        status resp = 401 \/ (400 <= status resp
                              /\ statusText resp = "save_clip_error") ->
        body_reads (events w') = body_reads (events w))
  /\ (forall e,
        transport (build_request origin this path options) = Rejected e ->
        body_reads (events w') = body_reads (events w)).
Proof.
  run_fetch.
  destruct (transport _) as [resp|e] eqn:Ht; simpl.
  2: { split; [count_events|]. split; [discriminate|]. intros; count_events. }
  split; [|split; [|discriminate]].
  - each_branch; count_events.
  - intros resp' [= <-] [Hs|[Hs Hst]].
    + rewrite Hs. simpl. count_events.
    + destruct (Z.eqb (status resp) 401); simpl; [count_events|].
      destruct (Z.leb_spec 400 (status resp)); [|lia].
      rewrite Hst. simpl. count_events.
Qed.

(** X5: in text mode a call is never fulfilled with a decoded structure:
    the value is the text of the body, or [undefined] after a 401. *)
Theorem text_mode_gives_text_or_nothing w v :
  isJSON options = Some false ->
  (fetch origin USER_KEY transport this path options w).1 = Fulfilled v ->
  v = JUndefined \/ exists t, v = JStr t.
Proof.
  intros Hj. run_fetch. rewrite Hj.
  destruct (transport _) as [resp|e]; simpl; [|discriminate].
  destruct (Z.eqb (status resp) 401); simpl.
  { intros [= <-]. by left. }
  destruct (Z.leb 400 (status resp)); simpl.
  { destruct (String.eqb _ _); simpl; [discriminate|].
    destruct (text resp); discriminate. }
  destruct (text resp); simpl; [|discriminate].
  intros [= <-]. right. eauto.
Qed.

End Runs.

Lemma success_example :
  status accepted < 400
  /\ fetch sample_origin sample_key (answer accepted) (mkAPI None signed_in)
       (API_PATH sample_origin +:+ "/requested_languages") no_options
       sample_world
     = (json accepted,
        mkWorld (localStorage sample_world)
          ((events sample_world
              ++ [Fetched (build_request sample_origin (mkAPI None signed_in)
                             (API_PATH sample_origin +:+ "/requested_languages")
                             no_options)])
             ++ [JsonRead]))
  /\ (fetch sample_origin sample_key (answer accepted) (mkAPI None signed_in)
        "/locales/cy/messages.ftl" (mkOptions None (Some false) None JUndefined)
        sample_world).1
     = Fulfilled (JStr "[1,true]").
Proof.
  split; [reflexivity|]. split.
  - apply (proj1 (success_is_decoded_by_content_mode sample_origin sample_key
                    (answer accepted) (mkAPI None signed_in)
                    (API_PATH sample_origin +:+ "/requested_languages")
                    no_options sample_world accepted eq_refl eq_refl)).
    reflexivity.
  - rewrite (proj2 (success_is_decoded_by_content_mode sample_origin sample_key
                      (answer accepted) (mkAPI None signed_in)
                      "/locales/cy/messages.ftl"
                      (mkOptions None (Some false) None JUndefined)
                      sample_world accepted eq_refl eq_refl)
               eq_refl "[1,true]" eq_refl).
    reflexivity.
Defined.


Lemma session_kept_example :
  localStorage
    (fetch sample_origin sample_key (answer server_failure)
       (mkAPI None anonymous) (API_PATH sample_origin +:+ "/user_client")
       no_options sample_world).2
  = localStorage sample_world.
Proof.
  apply (session_is_kept_unless_unauthorized sample_origin sample_key
           (answer server_failure) (mkAPI None anonymous)
           (API_PATH sample_origin +:+ "/user_client") no_options
           sample_world).
  intros resp H. injection H as <-. discriminate.
Defined.

Lemma body_read_example :
  status clip_rejected = 404
  /\ statusText clip_rejected = "save_clip_error"
  /\ body_reads
       (events
          (fetch sample_origin sample_key (answer clip_rejected)
             (mkAPI None anonymous) (API_PATH sample_origin +:+ "/fr/clips")
             no_options sample_world).2)
     = body_reads (events sample_world).
Proof.
  split; [reflexivity|]. split; [reflexivity|].
  apply (proj1 (proj2 (body_is_read_at_most_once sample_origin sample_key
                         (answer clip_rejected) (mkAPI None anonymous)
                         (API_PATH sample_origin +:+ "/fr/clips") no_options
                         sample_world))
           clip_rejected eq_refl).
  right. split; [simpl; lia | reflexivity].
Defined.

Lemma text_mode_example :
  exists t, JStr "[1,true]" = JStr t.
Proof.
  destruct (text_mode_gives_text_or_nothing sample_origin sample_key
              (answer accepted) (mkAPI None signed_in)
              "/locales/cy/messages.ftl"
              (mkOptions None (Some false) None JUndefined)
              sample_world (JStr "[1,true]") eq_refl eq_refl) as [H|H].
  - discriminate H.
  - exact H.
Defined.

(** ** The headers of a request *)

Section Shape.

Variable origin : string.
Variable this : API.
Variable path : string.
Variable options : FetchOptions.

(** X6: in text mode no content type is set: the request carries a
    [Content-Type] header exactly when the caller supplied one, with the
    caller's value. *)
Theorem text_mode_sets_no_content_type :
  isJSON options = Some false ->
  req_headers (build_request origin this path options) !! "Content-Type"
  = supplied options "Content-Type".
Proof.
  intros Hj. unfold build_request, finalHeaders; simpl.
  assert (Hm : merged_headers options !! "Content-Type"
               = supplied options "Content-Type").
  { unfold merged_headers, supplied, Object_assign. rewrite Hj. simpl.
    destruct (headers options) as [hs|]; simpl; [|done].
    destruct (hs !! "Content-Type") eqn:Hl.
    - by apply lookup_union_Some_l.
    - by rewrite lookup_union_r. }
  destruct (_ && _); [by rewrite lookup_insert_ne|done].
Qed.

(** X7: dispatch adds at most two headers of its own: a header of the
    request is one the caller supplied, or [Content-Type], or
    [client_id]. *)
Theorem only_two_headers_are_added k :
  is_Some (req_headers (build_request origin this path options) !! k) ->
  is_Some (supplied options k) \/ k = "Content-Type" \/ k = "client_id".
Proof.
  unfold build_request, finalHeaders; simpl.
  assert (Hm : is_Some (merged_headers options !! k) ->
               is_Some (supplied options k) \/ k = "Content-Type").
  { unfold merged_headers, supplied, Object_assign.
    destruct (headers options) as [hs|]; simpl.
    - rewrite lookup_union_is_Some. intros [?|H]; [by left|right].
      destruct (default true (isJSON options)).
      + apply lookup_singleton_is_Some in H. done.
      + rewrite lookup_empty in H. by destruct H.
    - intros H. right. destruct (default true (isJSON options)).
      + apply lookup_singleton_is_Some in H. done.
      + rewrite lookup_empty in H. by destruct H. }
  destruct (_ && _).
  - destruct (decide (k = "client_id")) as [->|Hne]; [auto|].
    rewrite lookup_insert_ne by done. intros H. destruct (Hm H); auto.
  - intros H. destruct (Hm H); auto.
Qed.

End Shape.

Lemma text_mode_headers_example :
  req_headers
    (build_request sample_origin (mkAPI None signed_in)
       (API_PATH sample_origin +:+ "/user_client/avatar/file")
       (mkOptions (Some POST) (Some false) None (JBlob sample_blob)))
    !! "Content-Type" = None.
Proof.
  apply (text_mode_sets_no_content_type sample_origin (mkAPI None signed_in)
           (API_PATH sample_origin +:+ "/user_client/avatar/file")
           (mkOptions (Some POST) (Some false) None (JBlob sample_blob))
           eq_refl).
Defined.

Lemma added_headers_example :
  is_Some (req_headers
             (build_request sample_origin (mkAPI None anonymous)
                (API_PATH sample_origin +:+ "/user_client") no_options)
             !! "client_id")
  /\ (is_Some (supplied no_options "client_id")
      \/ "client_id" = "Content-Type" \/ "client_id" = "client_id").
Proof.
  assert (H : is_Some (req_headers
                (build_request sample_origin (mkAPI None anonymous)
                   (API_PATH sample_origin +:+ "/user_client") no_options)
                !! "client_id")).
  { exists "client-1". reflexivity. }
  split; [exact H|].
  exact (only_two_headers_are_added sample_origin (mkAPI None anonymous)
           (API_PATH sample_origin +:+ "/user_client") no_options
           "client_id" H).
Defined.

(** ** Every endpoint call *)

Lemma bind_ret_run {A B} (m : Eff A) (k : A -> B) (w : World) :
  bind m (fun r => ret (k r)) w = (k (m w).1, (m w).2).
Proof. unfold bind, ret. by destruct (m w). Qed.







Lemma encodeURIComponent_safe (s : string) :
  forallb header_safe (list_ascii_of_string (encodeURIComponent s)) = true.
Proof.
  induction s as [|c s IH]; [done|].
  each_char c; simpl; exact IH.
Qed.



Section Calls.

Variable origin : string.
Variable USER_KEY : string.
Variable transport : Request -> Settled Response.
Variable this : API.

(** X8: a call of an endpoint method that cannot throw before it
    reaches dispatch (27 of the 31: all but [uploadClip], [saveAccount],
    [createGoal] and [report]) sends exactly one request, with credentials
    limited to the same origin: no retry, no second round trip. *)
Theorem each_call_is_one_round_trip c w :
  may_throw_first c = false ->
  exists req,
    requests (events (invoke origin USER_KEY transport this c w).2)
    = requests (events w) ++ [req]
    /\ req_credentials req = "same-origin".
Proof.
  intros _.
  destruct (invoke_is_one_dispatch origin USER_KEY transport this c)
    as (path & options & k & Hrun & _).
  exists (build_request origin this path options). split; [|done].
  rewrite Hrun.
  rewrite <- (fetch_sends_one_request origin USER_KEY transport this
                path options w).
  by destruct (fetch origin USER_KEY transport this path options w).
Qed.

(** X9: whatever the endpoint and the answer, a call writes nothing to
    the persisted store and removes nothing but [USER_KEY]: the store
    afterwards is the store before, with or without that key. *)
Theorem calls_only_ever_remove_the_session_key c w :
  let w' := (invoke origin USER_KEY transport this c w).2 in
  (localStorage w' = localStorage w
   \/ localStorage w' = delete USER_KEY (localStorage w))
  /\ (forall key, key <> USER_KEY ->
        localStorage w' !! key = localStorage w !! key)
  /\ (forall key v, localStorage w' !! key = Some v ->
        localStorage w !! key = Some v).
Proof.
  destruct (invoke_is_one_dispatch origin USER_KEY transport this c)
    as (path & options & k & Hrun & _).
  simpl. rewrite Hrun.
  pose proof (fetch_store origin USER_KEY transport this path options w) as H.
  destruct (fetch origin USER_KEY transport this path options w) as [r w'].
  simpl in *. split; [done|].
  destruct H as [-> | ->]; split; try done.
  - intros key Hk. by rewrite lookup_delete_ne.
  - intros key v. rewrite lookup_delete_Some. tauto.
Qed.




(** X13: for a sentence that is a well-formed text (on any other
    [encodeURIComponent] throws and nothing is sent), [uploadClip] posts
    the blob itself to the clip root, with the blob's type as content
    type and the sentence in two headers: its identifier as given and its
    text percent-encoded, so that the header holds visible ASCII
    characters only. *)
Theorem uploadClip_sends_blob_and_metadata blob sentenceId sentence w :
  well_formed_text sentence = true ->
  exists req,
    requests (events (uploadClip origin USER_KEY transport this blob
                        sentenceId sentence w).2)
    = requests (events w) ++ [req]
    /\ req_url req = getClipPath origin this
    /\ req_method req = POST
    /\ req_body req = Some (BodyBlob blob)
    /\ req_headers req !! "Content-Type" = Some (blob_type blob)
    /\ req_headers req !! "sentence_id" = Some sentenceId
    /\ req_headers req !! "sentence" = Some (encodeURIComponent sentence)
    /\ forallb header_safe
         (list_ascii_of_string (encodeURIComponent sentence)) = true.
Proof.
  intros _. eexists. split.
  { unfold uploadClip. apply fetch_sends_one_request. }
  repeat split; try done.
  - unfold build_request, finalHeaders; simpl.
    destruct (_ && _); [rewrite lookup_insert_ne by done|]; reflexivity.
  - unfold build_request, finalHeaders; simpl.
    destruct (_ && _); [rewrite lookup_insert_ne by done|]; reflexivity.
  - unfold build_request, finalHeaders; simpl.
    destruct (_ && _); [rewrite lookup_insert_ne by done|]; reflexivity.
  - apply encodeURIComponent_safe.
Qed.

(** X14: [saveVote] and [requestLanguage] post JSON text that parses back
    to the object they were given, [{isValid}] and [{language}], for every
    flag and every language string, and announce it as JSON. *)
Theorem json_payloads_parse_back :
  (forall id isValid w,
     exists req txt,
       requests (events (saveVote origin USER_KEY transport this id isValid
                           w).2)
       = requests (events w) ++ [req]
       /\ req_method req = POST
       /\ req_headers req !! "Content-Type"
          = Some "application/json; charset=utf-8"
       /\ req_body req = Some (BodyText txt)
       /\ JSON_parse txt = Some (JObj [("isValid", JBool isValid)]))
  /\ (forall language w,
        exists req txt,
          requests (events (requestLanguage origin USER_KEY transport this
                              language w).2)
          = requests (events w) ++ [req]
          /\ req_method req = POST
          /\ req_headers req !! "Content-Type"
             = Some "application/json; charset=utf-8"
          /\ req_body req = Some (BodyText txt)
          /\ JSON_parse txt = Some (JObj [("language", JStr language)])).
Proof.
  split.
  - intros id isValid w.
    destruct (JSON_parse_stringify (JObj [("isValid", JBool isValid)]) eq_refl)
      as (txt & Hs & Hp).
    eexists _, txt. split; [unfold saveVote; apply fetch_sends_one_request|].
    split; [done|]. split.
    { unfold build_request, finalHeaders; simpl.
      destruct (_ && _); [rewrite lookup_insert_ne by done|]; reflexivity. }
    split; [|done].
    unfold build_request, request_body. cbn [req_body body truthy].
    by rewrite Hs.
  - intros language w.
    destruct (JSON_parse_stringify (JObj [("language", JStr language)]) eq_refl)
      as (txt & Hs & Hp).
    eexists _, txt.
    split; [unfold requestLanguage; apply fetch_sends_one_request|].
    split; [done|]. split.
    { unfold build_request, finalHeaders; simpl.
      destruct (_ && _); [rewrite lookup_insert_ne by done|]; reflexivity. }
    split; [|done].
    unfold build_request, request_body. cbn [req_body body truthy].
    by rewrite Hs.
Qed.

(** X15: when the answer is a success whose JSON is an object,
    [fetchCrossLocaleMessages] is fulfilled with one [[name, value]] pair
    per property of that object, in the object's order. *)
Theorem cross_locale_messages_are_listed_as_pairs w resp ps :
  transport (build_request origin this "/cross-locale-messages.json" no_options)
    = Fulfilled resp ->
  status resp < 400 ->
  json resp = Fulfilled (JObj ps) ->
  (fetchCrossLocaleMessages origin USER_KEY transport this w).1
  = Fulfilled (JArr (map (fun p => JArr [JStr (fst p); snd p]) ps)).
Proof.
  intros Ht Hs Hj. unfold fetchCrossLocaleMessages.
  rewrite bind_ret_run. cbn [fst].
  rewrite (fetch_ok_json origin USER_KEY transport this
             "/cross-locale-messages.json" no_options w resp Ht Hs eq_refl).
  cbn [fst]. by rewrite Hj.
Qed.

(** X16: [saveAvatar] asks for the answer as text and parses it
    itself: on a successful answer it is fulfilled with the value
    [JSON.parse] gives for the text of the body. *)
Theorem saveAvatar_decodes_the_text_itself type file w resp v txt :
  transport
    (build_request origin this
       (API_PATH origin +:+ "/user_client/avatar/" +:+ AvatarType_text type)
       (mkOptions (Some POST) (Some false) None
          match file with Some f => JBlob f | None => JUndefined end))
    = Fulfilled resp ->
  status resp < 400 ->
  text resp = Fulfilled txt ->
  JSON_parse txt = Some v ->
  (saveAvatar origin USER_KEY transport this type file w).1 = Fulfilled v.
Proof.
  intros Ht Hs Htxt Hp. unfold saveAvatar.
  rewrite bind_ret_run. cbn [fst].
  rewrite (fetch_ok_text origin USER_KEY transport this _
             (mkOptions (Some POST) (Some false) None
                match file with Some f => JBlob f | None => JUndefined end)
             w resp Ht Hs eq_refl).
  cbn [fst]. rewrite Htxt.
  unfold JSON_parse_value, then_. cbn [ToString]. by rewrite Hp.
Qed.

End Calls.

(** X17: a call whose method does not read [this.locale] runs the same
    on two gateways that differ in their locale only: same request, same
    outcome, same effects. *)
Theorem calls_off_the_locale_ignore_it (origin USER_KEY : string)
    (transport : Request -> Settled Response) (c : Call)
    (l l' : Locale_State) (u : User_State) (w : World) :
  uses_locale c = false ->
  invoke origin USER_KEY transport (mkAPI l u) c w
  = invoke origin USER_KEY transport (mkAPI l' u) c w.
Proof. destruct c; try discriminate; reflexivity. Qed.

Lemma session_key_frame_example :
  "theme" <> sample_key
  /\ localStorage
       (invoke sample_origin sample_key (answer unauthorized)
          (mkAPI None anonymous) FetchAccount
          (mkWorld (<[ "theme" := "dark" ]> {[ sample_key := "client-1" ]})
             [])).2
       !! "theme"
     = Some "dark".
Proof.
  split; [discriminate|].
  rewrite (proj1 (proj2 (calls_only_ever_remove_the_session_key sample_origin
                           sample_key (answer unauthorized)
                           (mkAPI None anonymous) FetchAccount
                           (mkWorld (<[ "theme" := "dark" ]>
                                       {[ sample_key := "client-1" ]}) [])))
             "theme").
  - reflexivity.
  - discriminate.
Defined.




Lemma cross_locale_example :
  status accepted < 400
  /\ (fetchCrossLocaleMessages sample_origin sample_key (answer accepted)
        (mkAPI None signed_in) sample_world).1
     = Fulfilled (JArr [JArr [JStr "en"; JStr "English"];
                        JArr [JStr "cy"; JStr "Cymraeg"]]).
Proof.
  split; [reflexivity|].
  exact (cross_locale_messages_are_listed_as_pairs sample_origin sample_key
           (answer accepted) (mkAPI None signed_in) sample_world accepted
           [("en", JStr "English"); ("cy", JStr "Cymraeg")]
           eq_refl eq_refl eq_refl).
Defined.

Lemma saveAvatar_example :
  status accepted < 400
  /\ text accepted = Fulfilled "[1,true]"
  /\ JSON_parse "[1,true]" = Some (JArr [JNum (NInt 1); JBool true])
  /\ (saveAvatar sample_origin sample_key (answer accepted)
        (mkAPI None signed_in) avatar_file (Some sample_blob) sample_world).1
     = Fulfilled (JArr [JNum (NInt 1); JBool true]).
Proof.
  split; [reflexivity|]. split; [reflexivity|]. split; [reflexivity|].
  exact (saveAvatar_decodes_the_text_itself sample_origin sample_key
           (answer accepted) (mkAPI None signed_in) avatar_file
           (Some sample_blob) sample_world accepted
           (JArr [JNum (NInt 1); JBool true]) "[1,true]"
           eq_refl eq_refl eq_refl eq_refl).
Defined.

Lemma locale_free_call_example :
  uses_locale (FetchClipsStats (Some "cy")) = false
  /\ invoke sample_origin sample_key (answer accepted)
       (mkAPI (Some "fr") anonymous) (FetchClipsStats (Some "cy")) sample_world
     = invoke sample_origin sample_key (answer accepted)
         (mkAPI None anonymous) (FetchClipsStats (Some "cy")) sample_world.
Proof.
  split; [reflexivity|].
  exact (calls_off_the_locale_ignore_it sample_origin sample_key
           (answer accepted) (FetchClipsStats (Some "cy")) (Some "fr") None
           anonymous sample_world eq_refl).
Defined.

(** ** Re-scoping, again *)

Lemma forLocale_run (h : Heap) (this : nat) (l : string) (i : Instance) :
  gateways h !! this = Some i ->
  forLocale this l h
  = Some (fresh (dom (gateways h)),
          mkHeap (user_objects h)
            (<[ fresh (dom (gateways h))
                  := mkInstance (Some l) (this_user i) ]> (gateways h))).
Proof. intros Hi. unfold forLocale, new_API. by rewrite Hi. Qed.

Lemma fresh_gateway (h : Heap) : gateways h !! fresh (dom (gateways h)) = None.
Proof. apply not_elem_of_dom. apply is_fresh. Qed.

(** X18: re-scoping composes: [forLocale] on a re-scoped gateway yields
    a third gateway, distinct from both, with the last locale and the
    user reference of the first; the first two gateways keep their
    locales and no user state changes. *)
Theorem forLocale_composes (h : Heap) (this : nat) (l1 l2 : string)
    (i : Instance) :
  gateways h !! this = Some i ->
  exists r1 h1 r2 h2,
    forLocale this l1 h = Some (r1, h1)
    /\ forLocale r1 l2 h1 = Some (r2, h2)
    /\ r2 <> r1 /\ r2 <> this /\ r1 <> this
    /\ gateways h2 !! r2 = Some (mkInstance (Some l2) (this_user i))
    /\ gateways h2 !! r1 = Some (mkInstance (Some l1) (this_user i))
    /\ gateways h2 !! this = Some i
    /\ user_objects h2 = user_objects h.
Proof.
  intros Hi.
  pose proof (forLocale_run h this l1 i Hi) as H1.
  set (r1 := fresh (dom (gateways h))) in *.
  set (h1 := mkHeap (user_objects h)
               (<[ r1 := mkInstance (Some l1) (this_user i) ]> (gateways h)))
    in *.
  assert (Hr1 : gateways h !! r1 = None) by apply fresh_gateway.
  assert (Hi1 : gateways h1 !! r1
                = Some (mkInstance (Some l1) (this_user i))).
  { apply lookup_insert_eq. }
  pose proof (forLocale_run h1 r1 l2 _ Hi1) as H2.
  set (r2 := fresh (dom (gateways h1))) in *.
  assert (Hr2 : gateways h1 !! r2 = None) by apply fresh_gateway.
  assert (Hne1 : r1 <> this) by congruence.
  assert (Hne2 : r2 <> r1) by congruence.
  assert (Hne3 : r2 <> this).
  { intros ->. subst h1. simpl in Hr2.
    rewrite lookup_insert_ne in Hr2 by done. congruence. }
  eexists r1, h1, r2, _. split; [exact H1|]. split; [exact H2|].
  repeat split; try done; simpl.
  - apply lookup_insert_eq.
  - rewrite lookup_insert_ne by done. apply lookup_insert_eq.
  - by rewrite !lookup_insert_ne.
Qed.

(** X19: the gateway [forLocale(l)] returns reads the user of the
    original and builds its paths from [l] alone: its locale-scoped root
    is the API root followed by "/" and [l], or the API root itself when
    [l] is the empty string, whatever the locale of the original, which
    reads as before. *)
Theorem rescoped_gateway_has_its_own_root (origin : string) (h : Heap)
    (this : nat) (l : string) (a : API) :
  the_API h this = Some a ->
  exists r h' a',
    forLocale this l h = Some (r, h')
    /\ the_API h' r = Some a'
    /\ user a' = user a
    /\ getLocalePath origin a'
       = (if String.eqb l "" then API_PATH origin
          else API_PATH origin +:+ "/" +:+ l)
    /\ the_API h' this = Some a.
Proof.
  intros Ha. unfold the_API in Ha.
  destruct (gateways h !! this) as [i|] eqn:Hi; [|discriminate]. simpl in Ha.
  destruct (user_objects h !! this_user i) as [u|] eqn:Hu; [|discriminate].
  injection Ha as <-.
  unfold forLocale, new_API. rewrite Hi. simpl.
  set (r := fresh (dom (gateways h))).
  assert (Hr : gateways h !! r = None) by apply fresh_gateway.
  assert (Hne : r <> this) by congruence.
  eexists _, _, (mkAPI (Some l) u). split; [done|].
  unfold the_API; simpl.
  rewrite lookup_insert_eq, lookup_insert_ne, Hi by done; simpl.
  rewrite Hu; simpl. repeat split.
  unfold getLocalePath; simpl. by destruct (String.eqb l "").
Qed.

Lemma forLocale_composes_example :
  gateways sample_heap !! 0%nat = Some (mkInstance None 7%nat)
  /\ exists r1 h1 r2 h2,
       forLocale 0%nat "cy" sample_heap = Some (r1, h1)
       /\ forLocale r1 "fr" h1 = Some (r2, h2)
       /\ gateways h2 !! r2 = Some (mkInstance (Some "fr") 7%nat)
       /\ gateways h2 !! r1 = Some (mkInstance (Some "cy") 7%nat).
Proof.
  split; [reflexivity|].
  destruct (forLocale_composes sample_heap 0%nat "cy" "fr"
              (mkInstance None 7%nat) eq_refl)
    as (r1 & h1 & r2 & h2 & H1 & H2 & _ & _ & _ & H3 & H4 & _).
  exists r1, h1, r2, h2. repeat split; assumption.
Defined.

Lemma rescoped_root_example :
  the_API sample_heap 0%nat = Some (mkAPI None anonymous)
  /\ exists r h' a',
       forLocale 0%nat "cy" sample_heap = Some (r, h')
       /\ the_API h' r = Some a'
       /\ getLocalePath sample_origin a' = "https://voice.example/api/v1/cy".
Proof.
  split; [reflexivity|].
  destruct (rescoped_gateway_has_its_own_root sample_origin sample_heap 0%nat
              "cy" (mkAPI None anonymous) eq_refl)
    as (r & h' & a' & H1 & H2 & _ & H3 & _).
  exists r, h', a'. repeat split; assumption.
Defined.

(** ** Optional arguments in paths *)

Section Paths.

Variable origin : string.
Variable USER_KEY : string.
Variable transport : Request -> Settled Response.
Variable this : API.

(** X20: the statistics and goals endpoints take their locale as an
    argument.  A non-empty locale becomes a path segment after the API
    root (for goals, after "/user_client"); the empty string is treated as
    no locale at all: the call runs exactly as without the argument. *)
Theorem optional_locale_becomes_a_path_segment (from : ActivityFrom) w :
  (forall s, s <> "" ->
     requests (events (fetchClipsStats origin USER_KEY transport this
                         (Some s) w).2)
     = requests (events w)
         ++ [build_request origin this
               (API_PATH origin +:+ "/" +:+ s +:+ "/clips/stats") no_options]
     /\ requests (events (fetchClipVoices origin USER_KEY transport this
                            (Some s) w).2)
        = requests (events w)
            ++ [build_request origin this
                  (API_PATH origin +:+ "/" +:+ s +:+ "/clips/voices")
                  no_options]
     /\ requests (events (fetchContributionActivity origin USER_KEY transport
                            this from (Some s) w).2)
        = requests (events w)
            ++ [build_request origin this
                  (API_PATH origin +:+ "/" +:+ s
                     +:+ "/contribution_activity?from="
                     +:+ ActivityFrom_text from) no_options]
     /\ requests (events (fetchGoals origin USER_KEY transport this
                            (Some s) w).2)
        = requests (events w)
            ++ [build_request origin this
                  (API_PATH origin +:+ "/user_client/" +:+ s +:+ "/goals")
                  no_options])
  /\ fetchClipsStats origin USER_KEY transport this (Some "") w
     = fetchClipsStats origin USER_KEY transport this None w
  /\ fetchClipVoices origin USER_KEY transport this (Some "") w
     = fetchClipVoices origin USER_KEY transport this None w
  /\ fetchContributionActivity origin USER_KEY transport this from (Some "") w
     = fetchContributionActivity origin USER_KEY transport this from None w
  /\ fetchGoals origin USER_KEY transport this (Some "") w
     = fetchGoals origin USER_KEY transport this None w.
Proof.
  split; [|repeat split; reflexivity].
  intros s Hs.
  assert (Hseg : locale_segment (Some s) = "/" +:+ s).
  { unfold locale_segment; simpl. by destruct (String.eqb_spec s ""). }
  unfold fetchClipsStats, fetchClipVoices, fetchContributionActivity,
    fetchGoals.
  rewrite !fetch_sends_one_request, Hseg, !append_assoc.
  repeat split; reflexivity.
Qed.

(** X21: [fetchLeaderboard] puts the cursor into the query as JSON text,
    unescaped: for a cursor of two safe integers the path ends in
    "?cursor=" followed by "[", the digits of the first, ",", the digits of
    the second and "]", a text that parses back to the pair; without a
    cursor the path has no query. *)
Theorem leaderboard_cursor_parses_back (type : LeaderboardType) w :
  (forall a b,
     safe_integer a = true -> safe_integer b = true ->
     exists txt,
       requests (events (fetchLeaderboard origin USER_KEY transport this type
                           (Some (NInt a, NInt b)) w).2)
       = requests (events w)
           ++ [build_request origin this
                 (getClipPath origin this
                    +:+ match type with clip => "" | vote => "/votes" end
                    +:+ "/leaderboard" +:+ "?cursor=" +:+ txt) no_options]
       /\ txt = String "[" (int_to a (String "," (int_to b "]")))
       /\ JSON_parse txt = Some (JArr [JNum (NInt a); JNum (NInt b)]))
  /\ requests (events (fetchLeaderboard origin USER_KEY transport this type
                         None w).2)
     = requests (events w)
         ++ [build_request origin this
               (getClipPath origin this
                  +:+ match type with clip => "" | vote => "/votes" end
                  +:+ "/leaderboard" +:+ "") no_options].
Proof.
  split.
  - intros a b Ha Hb.
    assert (Hj : json_value (JArr [JNum (NInt a); JNum (NInt b)]) = true).
    { simpl. by rewrite Ha, Hb. }
    destruct (JSON_parse_stringify _ Hj) as (txt & Hs & Hp).
    exists txt. split; [|split; [|done]].
    + unfold fetchLeaderboard. rewrite fetch_sends_one_request, Hs.
      reflexivity.
    + by injection Hs as <-.
  - unfold fetchLeaderboard. by rewrite fetch_sends_one_request.
Qed.

End Paths.

Lemma optional_locale_example :
  "cy" <> ""
  /\ requests
       (events (fetchGoals sample_origin sample_key (answer accepted)
                  (mkAPI (Some "fr") signed_in) (Some "cy") sample_world).2)
     = [mkRequest "https://voice.example/api/v1/user_client/cy/goals" GET
          {[ "Content-Type" := "application/json; charset=utf-8" ]}
          "same-origin" None].
Proof.
  split; [discriminate|].
  rewrite (proj2 (proj2 (proj2 (proj1
             (optional_locale_becomes_a_path_segment sample_origin sample_key
                (answer accepted) (mkAPI (Some "fr") signed_in) you
                sample_world) "cy" ltac:(discriminate))))).
  reflexivity.
Defined.

Lemma leaderboard_cursor_example :
  safe_integer 3 = true
  /\ safe_integer 40 = true
  /\ exists txt,
       requests
         (events (fetchLeaderboard sample_origin sample_key (answer accepted)
                    (mkAPI (Some "fr") signed_in) vote
                    (Some (NInt 3, NInt 40)) sample_world).2)
       = [build_request sample_origin (mkAPI (Some "fr") signed_in)
            ("https://voice.example/api/v1/fr/clips/votes/leaderboard?cursor="
               +:+ txt) no_options]
       /\ txt = "[3,40]"
       /\ JSON_parse txt = Some (JArr [JNum (NInt 3); JNum (NInt 40)]).
Proof.
  split; [reflexivity|]. split; [reflexivity|].
  destruct (proj1 (leaderboard_cursor_parses_back sample_origin sample_key
                     (answer accepted) (mkAPI (Some "fr") signed_in) vote
                     sample_world) 3 40 eq_refl eq_refl)
    as (txt & Hsent & Htxt & Hparse).
  exists txt. split; [|split; [exact Htxt | exact Hparse]].
  rewrite Hsent, Htxt. reflexivity.
Defined.

Lemma uploadClip_example :
  well_formed_text "Hello, world" = true
  /\ exists req,
       requests
         (events (uploadClip sample_origin sample_key (answer accepted)
                    (mkAPI (Some "fr") anonymous) sample_blob "s-17"
                    "Hello, world" sample_world).2)
       = [req]
       /\ req_body req = Some (BodyBlob sample_blob)
       /\ req_headers req !! "sentence" = Some "Hello%2C%20world".
Proof.
  split; [reflexivity|].
  destruct (uploadClip_sends_blob_and_metadata sample_origin sample_key
              (answer accepted) (mkAPI (Some "fr") anonymous) sample_blob
              "s-17" "Hello, world" sample_world eq_refl)
    as (req & Hsent & _ & _ & Hbody & _ & _ & Hsentence & _).
  exists req. split; [exact Hsent|]. split; [exact Hbody | exact Hsentence].
Defined.

Lemma one_round_trip_example :
  may_throw_first (SaveVote "12" true) = false
  /\ exists req,
       requests
         (events (invoke sample_origin sample_key unreachable
                    (mkAPI (Some "fr") anonymous) (SaveVote "12" true)
                    sample_world).2)
       = requests (events sample_world) ++ [req]
       /\ req_credentials req = "same-origin".
Proof.
  split; [reflexivity|].
  exact (each_call_is_one_round_trip sample_origin sample_key unreachable
           (mkAPI (Some "fr") anonymous) (SaveVote "12" true) sample_world
           eq_refl).
Defined.
